(** * secure_probe.go: wallet anomaly probe over JSON-RPC

    A shallow embedding of [src/secure_probe.go] and the properties of its
    numeric codec ([hexToBig], [weiToEth]), of its remote-call wrapper
    ([call]) and of the scoring heuristics evaluated by [main].

    Conventions.
    - Go [string] and [json.RawMessage] values are byte sequences; both are
      modelled by [string] (a list of 8-bit [ascii] characters).  A nil
      slice and an empty slice are both the empty string: the program only
      takes their length and slices them.
    - [*big.Int] is [Z].
    - Go [int] (64 bits on the platforms the program targets) is a [Z] with
      the wrap-around of its addition written out ([int_add]).
    - The remote endpoint is a state-passing oracle: a section variable
      [post] answers every HTTP exchange and returns the next state of the
      world.  Panics and [os.Exit] are outcomes of the run. *)

From Stdlib Require Import ZArith List String Ascii Bool Lia.
Import ListNotations.
Local Open Scope string_scope.
Local Open Scope Z_scope.

(* ===================================================================== *)
(** ** Package [strings] *)
(* ===================================================================== *)

Module Strings.

(** [strings.HasPrefix(s, prefix)] *)
Fixpoint HasPrefix (s prefix : string) {struct prefix} : bool :=
  match prefix, s with
  | EmptyString, _ => true
  | String p prefix', String c s' => Ascii.eqb c p && HasPrefix s' prefix'
  | String _ _, EmptyString => false
  end.

(** [s[n:]] for [n <= len(s)] *)
Fixpoint drop (n : nat) (s : string) : string :=
  match n, s with
  | O, _ => s
  | S n', String _ s' => drop n' s'
  | S _, EmptyString => EmptyString
  end.

(** [strings.TrimPrefix(s, prefix)]: [s] without the leading [prefix],
    or [s] itself when it does not start with it. *)
Definition TrimPrefix (s prefix : string) : string :=
  if HasPrefix s prefix then drop (String.length prefix) s else s.

(** [len(s)] as an integer. *)
Definition len (s : string) : Z := Z.of_nat (String.length s).

End Strings.

(* ===================================================================== *)
(** ** Package [math/big]: the operations the program calls *)
(* ===================================================================== *)

Module Big.

(** *** Digits *)

(** Value of a character as a digit in [nat.scan]: ['0'..'9'] are 0..9,
    ['a'..'z'] and ['A'..'Z'] are 10..35 (bases up to 36), and every other
    byte is [MaxBase + 1 = 63], which no base accepts. *)
Definition digitVal (ch : ascii) : Z :=
  let c := Z.of_N (N_of_ascii ch) in
  if (48 <=? c) && (c <=? 57) then c - 48
  else if (97 <=? c) && (c <=? 122) then c - 97 + 10
  else if (65 <=? c) && (c <=? 90) then c - 65 + 10
  else 63.

(** The loop of [nat.scan] for a fixed base [b] (no prefix, no separators,
    no fraction): digits are accumulated while they belong to the base; the
    first byte that does not is left unread.  Returns the value, the number
    of digits consumed and the unread rest. *)
Fixpoint scanDigits (b : Z) (s : string) (acc : Z) (count : nat)
  : Z * nat * string :=
  match s with
  | EmptyString => (acc, count, EmptyString)
  | String ch s' =>
      let d1 := digitVal ch in
      if b <=? d1 then (acc, count, s)
      else scanDigits b s' (acc * b + d1) (S count)
  end.

(** [scanSign]: fails on an empty input (io.EOF), consumes one ['+'] or
    ['-'], and leaves any other byte unread. *)
Definition scanSign (s : string) : option (bool * string) :=
  match s with
  | EmptyString => None
  | String "-" s' => Some (true, s')
  | String "+" s' => Some (false, s')
  | String _ _ => Some (false, s)
  end.

(** [Int.SetString(s, base)] on a receiver that is zero
    ([new(big.Int)]), for an explicit base between 2 and 36.  The first
    component is the value the receiver holds afterwards, the second the
    success flag.  On failure the method returns [nil, false] and documents
    the receiver's value as undefined; the implementation leaves in it what
    [Int.scan] stored before the failure was detected, which is what
    this model returns:
    - empty input: the sign scan fails, the receiver is untouched (0);
    - no digit after the sign: the magnitude is set to 0, the sign is not
      touched;
    - digits followed by other bytes: the receiver holds the signed value
      of the digits read. *)
Definition SetString (s : string) (base : Z) : Z * bool :=
  match scanSign s with
  | None => (0, false)
  | Some (neg, r) =>
      let '(abs, count, rest) := scanDigits base r 0 O in
      match count with
      | O => (0, false)
      | S _ =>
          (if neg then - abs else abs,
           match rest with EmptyString => true | String _ _ => false end)
      end
  end.

(** [x.Cmp(y)]: -1, 0 or +1. *)
Definition Cmp (x y : Z) : Z :=
  match x ?= y with Lt => -1 | Eq => 0 | Gt => 1 end.

(** [x.Sign()]: -1, 0 or +1. *)
Definition Sign (x : Z) : Z := Z.sgn x.

(** [x.BitLen()]: length of the absolute value in bits, 0 for 0. *)
Definition BitLen (x : Z) : Z :=
  if x =? 0 then 0 else Z.log2 (Z.abs x) + 1.

(** *** Rendering integers *)

Definition digitChar (d : Z) : ascii :=
  if d <? 10 then ascii_of_N (Z.to_N (48 + d))
  else ascii_of_N (Z.to_N (97 + d - 10)).

(** Digits of a non-negative [n] in base [b], most significant first, in
    front of [acc]; [fuel] bounds the number of digits. *)
Fixpoint utoa (fuel : nat) (b n : Z) (acc : string) : string :=
  match fuel with
  | O => acc
  | S fuel' =>
      let acc' := String (digitChar (n mod b)) acc in
      if n / b =? 0 then acc' else utoa fuel' b (n / b) acc'
  end.

(** Absolute value in base [b] (lower-case digits, no leading zeros, "0"
    for zero).  A number has at most [log2 n + 1] digits in any base. *)
Definition itoa (b : Z) (x : Z) : string :=
  let n := Z.abs x in
  (if x <? 0 then "-" else "") ++ utoa (S (Z.to_nat (Z.log2 n))) b n "".

(** [x.String()]: decimal. *)
Definition String_ (x : Z) : string := itoa 10 x.

(** [x.Format] for the verb [%x] without flags: sign, then lower-case
    hexadecimal digits. *)
Definition Format_x (x : Z) : string := itoa 16 x.

(** *** [big.Float]

    The three operations the program calls, with the semantics the package
    documents: [SetInt] is exact, [Quo] rounds the quotient to the
    precision of the receiver, [Text] rounds the decimal expansion.

    A finite [big.Float] is a sign, a precision [prec] in bits and a value
    [mant * 2^exp]; [mant] is 0 for zero and otherwise an integer of exactly
    [prec] bits ([2^(prec-1) <= mant < 2^prec]).  The rounding mode is the
    default of a new Float, [ToNearestEven]. *)
Record Float := mkFloat { prec : Z; neg : bool; mant : Z; exp : Z }.

(** [a / b] rounded to the nearest integer, ties to even ([0 <= a], [0 < b]). *)
Definition quoRNE (a b : Z) : Z :=
  let q := a / b in
  let r := a mod b in
  if (b <? 2 * r) || ((2 * r =? b) && Z.odd q) then q + 1 else q.

(** [new(big.Float).SetInt(x)]: the precision of a new Float is 0, so it
    becomes [max(x.BitLen(), 64)] and the value is [x] exactly. *)
Definition SetInt (x : Z) : Float :=
  let bits := BitLen x in
  let p := Z.max bits 64 in
  if x =? 0 then mkFloat p false 0 0
  else mkFloat p (x <? 0) (Z.abs x * 2 ^ (p - bits)) (bits - p).

(** [big.NewFloat(1e18)]: the float64 constant 1e18 is 10^18 exactly
    ([10^18 = 5^18 * 2^18] and [5^18 < 2^53]); precision 53. *)
Definition NewFloat_1e18 : Float := mkFloat 53 false (5 ^ 18 * 2 ^ 11) 7.

(** [x.Quo(x, y)] for a finite non-zero [y]: the receiver is [x], so the
    result has the precision of [x] and is the quotient rounded to that
    precision, to nearest even.  The numerator is scaled by [2^s] so that
    the quotient has [prec x] bits before the rounding; a rounding that
    carries into bit [prec x] is renormalised. *)
Definition Quo (x y : Float) : Float :=
  let p := prec x in
  let sign := xorb (neg x) (neg y) in
  if mant x =? 0 then mkFloat p sign 0 0
  else
    let s0 := prec y in
    let s := if mant x * 2 ^ s0 <? mant y * 2 ^ p then s0 else s0 - 1 in
    let m := quoRNE (mant x * 2 ^ s) (mant y) in
    let e := exp x - exp y - s in
    if m =? 2 ^ p then mkFloat p sign (2 ^ (p - 1)) (e + 1)
    else mkFloat p sign m e.

(** [n] as exactly [k] decimal digits (leading zeros), in front of [acc]. *)
Fixpoint fixedDigits (k : nat) (n : Z) (acc : string) : string :=
  match k with
  | O => acc
  | S k' => fixedDigits k' (n / 10) (String (digitChar (n mod 10)) acc)
  end.

(** The value of [x] in units of [10^-digits], rounded to the nearest
    integer, ties to even: the decimal expansion of a binary value is
    finite, [Text] converts it exactly and rounds the decimal digits. *)
Definition scaled (x : Float) (digits : nat) : Z :=
  let scale := 10 ^ Z.of_nat digits in
  if 0 <=? exp x then mant x * 2 ^ exp x * scale
  else quoRNE (mant x * scale) (2 ^ (- exp x)).

(** [x.Text('f', digits)] for [digits > 0]: sign, integer part, point and
    exactly [digits] fractional digits. *)
Definition Text_f (x : Float) (digits : nat) : string :=
  let scale := 10 ^ Z.of_nat digits in
  let n := scaled x digits in
  (if neg x then "-" else "")
    ++ itoa 10 (n / scale) ++ "." ++ fixedDigits digits (n mod scale) "".

End Big.

(** [hexToBig]: the success flag of [SetString] is dropped and the receiver
    is returned whatever it holds. *)
Definition hexToBig (s : string) : Z :=
  fst (Big.SetString (Strings.TrimPrefix s "0x") 16).

(** [weiToEth]: the amount as a Float divided by the Float 1e18. *)
Definition weiToEth (x : Z) : Big.Float :=
  let f := Big.SetInt x in
  let den := Big.NewFloat_1e18 in
  Big.Quo f den.

(* ===================================================================== *)
(** ** The remote call *)
(* ===================================================================== *)

(** Go [error] values are modelled by their message. *)
Definition error := string.

(** [json.RawMessage]: the bytes of the [result] member as they stand in
    the response; a hex string arrives in its quotes. *)
Definition RawMessage := string.

Record rpcReq := mkReq
  { Jsonrpc : string; Method : string; Params : list string; Id : Z }.

Record rpcErr := mkErr { Code : Z; Message : string }.

Record rpcRes := mkRes
  { res_Jsonrpc : string; Result : RawMessage; Error : option rpcErr }.

(** What one HTTP exchange can come to: [http.Post] fails, the body is
    not the JSON of an [rpcRes], or it decodes to [out]. *)
Inductive exchange :=
| PostFailed (err : error)
| DecodeFailed (err : error)
| Decoded (out : rpcRes).

(** [fmt.Errorf("rpc error %d: %s", code, message)] *)
Definition Errorf_rpc (code : Z) (message : string) : error :=
  "rpc error " ++ Big.itoa 10 code ++ ": " ++ message.

(** [score += k] on a 64-bit [int]. *)
Definition int_add (a b : Z) : Z :=
  (a + b + 2 ^ 63) mod 2 ^ 64 - 2 ^ 63.

(** The reasons appended by the three rules. *)
Definition reason_balance (balDiff : Z) : string :=
  "balance drop ~" ++ Big.Text_f (weiToEth balDiff) 6 ++ " ETH/100 blocks".

Definition reason_nonce (nonceDiff : Z) : string :=
  "high tx activity: +" ++ Big.String_ nonceDiff ++ " nonce/100 blocks".

Definition reason_code : string :=
  "address has code (smart wallet or contract)".

(** Lines 96-100: [balDiff.Sign() > 0]. *)
Definition balance_rule (balDiff : Z) (st : Z * list string) : Z * list string :=
  let '(score, reasons) := st in
  if Big.Sign balDiff >? 0
  then (int_add score 35, (reasons ++ [reason_balance balDiff])%list)
  else (score, reasons).

(** Lines 101-105: [nonceDiff.Cmp(big.NewInt(20)) > 0]. *)
Definition nonce_rule (nonceDiff : Z) (st : Z * list string) : Z * list string :=
  let '(score, reasons) := st in
  if Big.Cmp nonceDiff 20 >? 0
  then (int_add score 25, (reasons ++ [reason_nonce nonceDiff])%list)
  else (score, reasons).

(** Lines 112-115: [len(codeNowRaw) > 4], that is, not the four bytes of
    the quoted empty code. *)
Definition code_rule (codeNowRaw : RawMessage) (st : Z * list string)
  : Z * list string :=
  let '(score, reasons) := st in
  if Strings.len codeNowRaw >? 4
  then (int_add score 10, (reasons ++ [reason_code])%list)
  else (score, reasons).

(** Line 118. *)
Definition clamp (score : Z) : Z := if score >? 100 then 100 else score.

(** The document printed at the end of [main]. *)
Record report := mkReport
  { Address : string;
    Block : string;
    Score : Z;
    Reasons : list string;
    BalLatest : string }.

(** The variables of [main] when it reaches its last statement. *)
Record locals := mkLocals
  { latest : Z;
    balLatest : Z;
    balPast : Z;
    pastBlock : Z;
    nonceNow : Z;
    noncePast : Z;
    balDiff : Z;
    nonceDiff : Z;
    codeNowRaw : RawMessage;
    score : Z;
    reasons : list string;
    out : report }.

(** How a run ends other than by printing the report. *)
Inductive abort :=
| UsageExit                (* usage line printed, os.Exit(1) *)
| PanicError (err : error) (* panic(err) *)
| PanicSliceBounds.        (* runtime error: slice bounds out of range *)

Inductive result (A : Type) :=
| Ok (a : A)
| Abort (why : abort).
Arguments Ok {A} a.
Arguments Abort {A} why.

(** One entry of the history of a run: a remote call that was made and
    what [call] returned for it. *)
Record callRecord := mkCall
  { call_method : string;
    call_params : list string;
    call_raw : RawMessage;
    call_err : option error }.

Section Probe.

(** The world outside the process and the endpoint: one exchange takes the
    URL and the request and yields what came back and the next world. *)
Variable World : Type.
Variable post : World -> string -> rpcReq -> exchange * World.

(** The state of a run: the world, and the history of the calls made so
    far (a ghost variable: the program never reads it). *)
Definition state : Type := World * list callRecord.

(** Computations of the run: they read and change the state, and either
    go on with a value or end the run. *)
Definition M (A : Type) : Type := state -> result A * state.

Definition ret {A} (a : A) : M A := fun s => (Ok a, s).

Definition stop {A} (why : abort) : M A := fun s => (Abort why, s).

Definition bind {A B} (c : M A) (k : A -> M B) : M B :=
  fun s =>
    match c s with
    | (Ok a, s') => k a s'
    | (Abort why, s') => (Abort why, s')
    end.

Notation "x <- c ;; k" := (bind c (fun x => k))
  (at level 61, c at next level, right associativity).
Notation "' pat <- c ;; k" := (bind c (fun x => match x with pat => k end))
  (at level 61, pat pattern, c at next level, right associativity).

(** What [call] returns for an exchange: every error path returns a nil
    message with the error; only a decoded response without an error
    member returns its [result]. *)
Definition call_result (resp : exchange) : RawMessage * option error :=
  match resp with
  | PostFailed err => ("", Some err)
  | DecodeFailed err => ("", Some err)
  | Decoded out =>
      match Error out with
      | Some e => ("", Some (Errorf_rpc (Code e) (Message e)))
      | None => (Result out, None)
      end
  end.

(** [call(url, method, params...)] *)
Definition call (url method : string) (params : list string)
  : M (RawMessage * option error) :=
  fun s =>
    let '(resp, w') := post (fst s) url (mkReq "2.0" method params 1) in
    let r := call_result resp in
    (Ok r, (w', (snd s ++ [mkCall method params (fst r) (snd r)])%list)).

(** [raw[1:len(raw)-1]]: the bounds [1 <= len(raw)-1] are checked at run
    time; a message shorter than two bytes panics. *)
Definition slice_inner (raw : RawMessage) : M string :=
  if Strings.len raw <? 2 then stop PanicSliceBounds
  else ret (substring 1 (String.length raw - 2) raw).

(** [main], up to its last statement.  [env] is [os.Getenv]. *)
Definition main_locals (env : string -> string) : M locals :=
  let rpc := env "RPC_URL" in
  let addr := env "ADDRESS" in
  if (rpc =? "")%string || (addr =? "")%string then stop UsageExit
  else
    (* latest block number *)
    ' (bnRaw, err) <- call rpc "eth_blockNumber" [] ;;
    match err with
    | Some e => stop (PanicError e)
    | None =>
    bn <- slice_inner bnRaw ;;
    let latest := hexToBig bn in
    (* balance at latest and 100 blocks ago (if possible) *)
    ' (balLatestRaw, _) <- call rpc "eth_getBalance" [addr; "latest"] ;;
    bl <- slice_inner balLatestRaw ;;
    let balLatest := hexToBig bl in
    ' (balPast, pastBlock) <-
      (if Big.Cmp latest 100 >? 0 then
         let pastBlock := latest - 100 in
         let tag := "0x" ++ Big.Format_x pastBlock in
         ' (balPastRaw, _) <- call rpc "eth_getBalance" [addr; tag] ;;
         bp <- slice_inner balPastRaw ;;
         ret (hexToBig bp, pastBlock)
       else ret (balLatest, latest)) ;;
    (* nonce now vs 100 blocks ago *)
    ' (nonceNowRaw, _) <- call rpc "eth_getTransactionCount" [addr; "latest"] ;;
    ' (noncePastRaw, _) <-
      call rpc "eth_getTransactionCount" [addr; "0x" ++ Big.Format_x pastBlock] ;;
    nn <- slice_inner nonceNowRaw ;;
    let nonceNow := hexToBig nn in
    np <- slice_inner noncePastRaw ;;
    let noncePast := hexToBig np in
    (* simple heuristics *)
    let st := (0, []) in
    let balDiff := balPast - balLatest in
    let st := balance_rule balDiff st in
    let nonceDiff := nonceNow - noncePast in
    let st := nonce_rule nonceDiff st in
    (* [w := codeWindow{latest - 50, latest}] is assigned and never read *)
    let probeAddr := addr in
    ' (codeNowRaw, _) <- call rpc "eth_getCode" [probeAddr; "latest"] ;;
    let st := code_rule codeNowRaw st in
    let score := clamp (fst st) in
    let reasons := snd st in
    ret (mkLocals latest balLatest balPast pastBlock nonceNow noncePast
           balDiff nonceDiff codeNowRaw score reasons
           (mkReport addr ("0x" ++ Big.Format_x latest) score reasons
              (Big.Text_f (weiToEth balLatest) 6)))
    end.

(** A run of [main] from the world [w], with an empty history. *)
Definition main_run (env : string -> string) (w : World)
  : result locals * state :=
  main_locals env (w, []).

(** The calls a run made, in order. *)
Definition history (env : string -> string) (w : World) : list callRecord :=
  snd (snd (main_run env w)).

(** How a run of [main] ends. *)
Inductive outcome :=
| Printed (doc : report)
| Aborted (why : abort).

Definition main (env : string -> string) (w : World) : outcome :=
  match fst (main_run env w) with
  | Ok l => Printed (out l)
  | Abort why => Aborted why
  end.

End Probe.

Arguments ret {World A} a.
Arguments stop {World A} why.
Arguments bind {World A B} c k.

(** The heuristics of lines 94-118 on the values fetched: what [main]
    computes between the last fetch and the report ([main_run_Ok]). *)
Definition heuristics (balDiff nonceDiff : Z) (codeNowRaw : RawMessage)
  : Z * list string :=
  let st := code_rule codeNowRaw
              (nonce_rule nonceDiff (balance_rule balDiff (0, []))) in
  (clamp (fst st), snd st).

(* ===================================================================== *)
(** ** The specification's side *)
(* ===================================================================== *)

(** *** [decodeHex] as the specification words it (4.1)

    "Strips an optional 0x prefix and parses the remainder as a base-16
    unsigned integer of unbounded width.  Fails with DecodeError on non-hex
    characters."  [None] is the DecodeError. *)

Definition isHexDigit (ch : ascii) : bool :=
  let c := Z.of_N (N_of_ascii ch) in
  ((48 <=? c) && (c <=? 57)) || ((97 <=? c) && (c <=? 102))
  || ((65 <=? c) && (c <=? 70)).

Definition hexDigitValue (ch : ascii) : Z :=
  let c := Z.of_N (N_of_ascii ch) in
  if c <=? 57 then c - 48 else if c <=? 70 then c - 55 else c - 87.

Fixpoint allHex (s : string) : bool :=
  match s with
  | EmptyString => true
  | String ch s' => isHexDigit ch && allHex s'
  end.

Fixpoint hexValueFrom (acc : Z) (s : string) : Z :=
  match s with
  | EmptyString => acc
  | String ch s' => hexValueFrom (acc * 16 + hexDigitValue ch) s'
  end.

Definition hexValue (s : string) : Z := hexValueFrom 0 s.

Definition decodeHex_spec (s : string) : option Z :=
  let r := Strings.TrimPrefix s "0x" in
  if allHex r then Some (hexValue r) else None.

(** *** [weiToEther] as the specification words it (4.1)

    "Divides the BigInt by 10^18 using decimal arithmetic and renders
    exactly 6 digits after the decimal point", under one rounding mode:
    the exact quotient in millionths is [n / 10^12], rounded by the mode. *)

Inductive RoundingMode :=
| HalfEven | HalfAwayFromZero | HalfTowardZero | HalfOdd
| TowardZero | AwayFromZero | Floor | Ceiling.

(** [a / b] for [0 <= a] and [0 < b], rounded by [mode]. *)
Definition roundQuo (mode : RoundingMode) (a b : Z) : Z :=
  let q := a / b in
  let r := a mod b in
  let up := q + 1 in
  match mode with
  | HalfEven => if (b <? 2 * r) || ((2 * r =? b) && Z.odd q) then up else q
  | HalfAwayFromZero => if b <=? 2 * r then up else q
  | HalfTowardZero => if b <? 2 * r then up else q
  | HalfOdd => if (b <? 2 * r) || ((2 * r =? b) && Z.even q) then up else q
  | TowardZero | Floor => q
  | AwayFromZero | Ceiling => if r =? 0 then q else up
  end.

(** The decimal rendering of a non-negative amount of wei. *)
Definition weiToEther_spec (mode : RoundingMode) (n : Z) : string :=
  let m := roundQuo mode n (10 ^ 12) in
  Big.itoa 10 (m / 10 ^ 6) ++ "." ++ Big.fixedDigits 6 (m mod 10 ^ 6) "".

(** *** The bytes of a code result (4.2, 6)

    "The code result is a 0x-prefixed hex byte string, empty iff exactly
    the two-character 0x string": the message is that string in its
    quotes, two hex digits to the byte. *)

Fixpoint decodeBody (s : string) : option (list Z) :=
  match s with
  | EmptyString => None
  | String c EmptyString => if Ascii.eqb c "034" then Some [] else None
  | String a (String b r) =>
      if isHexDigit a && isHexDigit b then
        match decodeBody r with
        | Some bytes => Some (16 * hexDigitValue a + hexDigitValue b :: bytes)
        | None => None
        end
      else None
  end.

Definition decodedBytes_spec (raw : RawMessage) : option (list Z) :=
  match raw with
  | String q (String z (String x body)) =>
      if Ascii.eqb q "034" && Ascii.eqb z "0" && Ascii.eqb x "x"
      then decodeBody body else None
  | _ => None
  end.

(* ===================================================================== *)
(** ** Endpoints to run the program against *)
(* ===================================================================== *)

(** A node that answers by the request alone. *)
Definition node (answer : rpcReq -> exchange)
  : unit -> string -> rpcReq -> exchange * unit :=
  fun w _ req => (answer req, w).

(** A JSON string without escapes, as [result] carries it: the text in
    double quotes (byte 34). *)
Definition quoted (s : string) : RawMessage :=
  String "034"%char (s ++ String "034"%char "").

(** A chain at block [bn] on which the account holds [balNow] and has
    nonce [nonceNow] at the tag "latest", [balRef] and [nonceRef] at any
    other tag, and has [code] deployed. *)
Definition chain (bn balNow balRef nonceNow nonceRef code : string)
  (req : rpcReq) : exchange :=
  let reply r := Decoded (mkRes "2.0" (quoted r) None) in
  let at_latest := (nth 1 (Params req) "" =? "latest")%string in
  if (Method req =? "eth_blockNumber")%string then reply bn
  else if (Method req =? "eth_getBalance")%string
       then reply (if at_latest then balNow else balRef)
  else if (Method req =? "eth_getTransactionCount")%string
       then reply (if at_latest then nonceNow else nonceRef)
  else if (Method req =? "eth_getCode")%string then reply code
  else Decoded (mkRes "2.0" "" (Some (mkErr (-32601) "method not found"))).

(** The same endpoint with every exchange for [method] failing in
    [http.Post]. *)
Definition failing (method : string) (answer : rpcReq -> exchange)
  (req : rpcReq) : exchange :=
  if (Method req =? method)%string then PostFailed "connection refused"
  else answer req.

Definition sample_env (name : string) : string :=
  if (name =? "RPC_URL")%string then "http://localhost:8545"
  else if (name =? "ADDRESS")%string
       then "0x00000000000000000000000000000000000000aa"
  else "".

(** Block 16: one ether, nonce 5 at every tag, two bytes of code. *)
Definition young_chain : rpcReq -> exchange :=
  chain "0x10" "0xde0b6b3a7640000" "0xde0b6b3a7640000" "0x5" "0x5" "0x6080".

(** Block 1000: 1.5 ether now and 2 ether at block 900, nonce 10 now and
    5 then, no code. *)
Definition drained_chain : rpcReq -> exchange :=
  chain "0x3e8" "0x14d1120d7b160000" "0x1bc16d674ec80000" "0xa" "0x5" "0x".

(** Block 1000: the same balance at both blocks, nonce 26 now and 5 at
    block 900, two bytes of code. *)
Definition busy_chain : rpcReq -> exchange :=
  chain "0x3e8" "0xde0b6b3a7640000" "0xde0b6b3a7640000" "0x1a" "0x5" "0x6080".

(** Block 1000: every rule fires. *)
Definition alarming_chain : rpcReq -> exchange :=
  chain "0x3e8" "0x14d1120d7b160000" "0x1bc16d674ec80000" "0x1a" "0x5" "0x6080".

(* ===================================================================== *)
(** ** Vocabulary for the properties of runs *)
(* ===================================================================== *)

(** The request a call of the history stands for. *)
Definition request (c : callRecord) : string * list string :=
  (call_method c, call_params c).

(** What [main] decodes from a message: [hexToBig(string(raw[1:len(raw)-1]))];
    meaningful when the slice is in bounds. *)
Definition decoded (raw : RawMessage) : Z :=
  hexToBig (substring 1 (String.length raw - 2) raw).

(** The requests of lines 70-111 in program order, for the account [addr]
    and the latest block [latest]: the balance at the reference block is
    asked for only above block 100. *)
Definition expected_requests (addr : string) (latest : Z)
  : list (string * list string) :=
  let pastBlock := if 100 <? latest then latest - 100 else latest in
  ([("eth_blockNumber", []); ("eth_getBalance", [addr; "latest"])]
   ++ (if 100 <? latest
       then [("eth_getBalance", [addr; ("0x" ++ Big.Format_x pastBlock)%string])]
       else [])
   ++ [("eth_getTransactionCount", [addr; "latest"]);
       ("eth_getTransactionCount", [addr; ("0x" ++ Big.Format_x pastBlock)%string]);
       ("eth_getCode", [addr; "latest"])])%list.

(** An endpoint that answers [method] with the message [raw], without an
    error member, and everything else as [answer] does. *)
Definition replying (method : string) (raw : RawMessage)
  (answer : rpcReq -> exchange) (req : rpcReq) : exchange :=
  if (Method req =? method)%string then Decoded (mkRes "2.0" raw None)
  else answer req.

(** ASCII lower case, as [strings.ToLower] on hex digits. *)
Definition lower (ch : ascii) : ascii :=
  let c := N_of_ascii ch in
  if ((65 <=? c) && (c <=? 90))%N then ascii_of_N (c + 32) else ch.

Fixpoint ToLower (s : string) : string :=
  match s with
  | EmptyString => EmptyString
  | String ch s' => String (lower ch) (ToLower s')
  end.

(** What a run that prints has fetched: the messages returned by its
    calls, in program order, and the error of the code call (the errors of
    the other calls are absent in such a run).  [got_balance_ref] is the
    answer of the balance call at the reference block, which is made only
    above block 100. *)
Record fetched := mkFetched
  { got_block : RawMessage;
    got_balance : RawMessage;
    got_balance_ref : RawMessage;
    got_nonce : RawMessage;
    got_nonce_ref : RawMessage;
    got_code : RawMessage;
    got_code_err : option error }.

(** The latest block and the reference block, as decoded from the answer
    to the first call. *)
Definition fetched_latest (f : fetched) : Z := decoded (got_block f).

Definition fetched_pastBlock (f : fetched) : Z :=
  if 100 <? fetched_latest f then fetched_latest f - 100 else fetched_latest f.

(** The history of a run that fetched [f] for the account [addr]: five
    calls up to block 100 and six above, each with its request and the
    message it returned. *)
Definition fetched_history (addr : string) (f : fetched) : list callRecord :=
  let tag := ("0x" ++ Big.Format_x (fetched_pastBlock f))%string in
  ([mkCall "eth_blockNumber" [] (got_block f) None;
    mkCall "eth_getBalance" [addr; "latest"] (got_balance f) None]
   ++ (if 100 <? fetched_latest f
       then [mkCall "eth_getBalance" [addr; tag] (got_balance_ref f) None]
       else [])
   ++ [mkCall "eth_getTransactionCount" [addr; "latest"] (got_nonce f) None;
       mkCall "eth_getTransactionCount" [addr; tag] (got_nonce_ref f) None;
       mkCall "eth_getCode" [addr; "latest"] (got_code f) (got_code_err f)])%list.

(** The balance delta of the answers: reference minus latest above block
    100, and zero up to block 100, where no reference balance is fetched. *)
Definition fetched_balDiff (f : fetched) : Z :=
  if 100 <? fetched_latest f
  then decoded (got_balance_ref f) - decoded (got_balance f)
  else 0.

(** The nonce delta of the answers: latest minus reference. *)
Definition fetched_nonceDiff (f : fetched) : Z :=
  decoded (got_nonce f) - decoded (got_nonce_ref f).

(** Block 16, no code: the node answers nonce 26 at the tag "latest" and
    nonce 5 at the tag "0x10" (the chain moved on between the calls). *)
Definition racing_chain : rpcReq -> exchange :=
  chain "0x10" "0xde0b6b3a7640000" "0xde0b6b3a7640000" "0x1a" "0x5" "0x".

(* ===================================================================== *)
(** ** Sample evaluations *)
(* ===================================================================== *)

Example hexToBig_samples :
  hexToBig "0x1b4" = 436 /\ hexToBig "1b4" = 436 /\ hexToBig "0x1B4" = 436
  /\ hexToBig "0x" = 0 /\ hexToBig "" = 0 /\ hexToBig "0x12zz" = 18
  /\ hexToBig "0x-5" = -5 /\ hexToBig "0X10" = 0.
Proof. repeat split; reflexivity. Qed.

Example itoa_samples :
  Big.Format_x 436 = "1b4" /\ Big.Format_x 0 = "0" /\ Big.Format_x (-5) = "-5"
  /\ Big.String_ 21 = "21" /\ Big.String_ (-32601) = "-32601".
Proof. repeat split; reflexivity. Qed.

Example weiToEth_samples :
  Big.Text_f (weiToEth (15 * 10 ^ 17)) 6 = "1.500000"
  /\ Big.Text_f (weiToEth 0) 6 = "0.000000"
  /\ Big.Text_f (weiToEth 1) 6 = "0.000000"
  /\ Big.Text_f (weiToEth (-1)) 6 = "-0.000000"
  /\ Big.Text_f (weiToEth 7812500000000000) 6 = "0.007812"
  /\ Big.Text_f (weiToEth (123456789 * 10 ^ 30)) 6
     = "123456789000000000000.000000".
Proof. repeat split; vm_compute; reflexivity. Qed.

(** The first end-to-end case of the specification (8): block 1000, 2 ether
    at the reference block and 1.5 ether now, nonce delta 5, no code. *)
Example main_drained :
  main unit (node drained_chain) sample_env tt
  = Printed (mkReport "0x00000000000000000000000000000000000000aa" "0x3e8" 35
               ["balance drop ~0.500000 ETH/100 blocks"] "1.500000").
Proof. vm_compute. reflexivity. Qed.

(** Without the two configuration values no call is made. *)
Example main_usage :
  main unit (node drained_chain) (fun _ => "") tt = Aborted UsageExit
  /\ history unit (node drained_chain) (fun _ => "") tt = [].
Proof. split; reflexivity. Qed.

(* ===================================================================== *)
(** ** Arithmetic of the two roundings *)
(* ===================================================================== *)

Lemma pow2_pos (k : Z) : 0 <= k -> 0 < 2 ^ k.
Proof. intros. apply Z.pow_pos_nonneg; lia. Qed.

(** [quoRNE a b] is within half a unit of [a / b]. *)
Lemma quoRNE_bound (a b : Z) :
  0 < b -> - b <= 2 * (Big.quoRNE a b * b - a) <= b.
Proof.
  intros Hb. unfold Big.quoRNE.
  pose proof (Z.div_mod a b ltac:(lia)) as Hdm.
  pose proof (Z.mod_pos_bound a b Hb) as Hr.
  destruct ((b <? 2 * (a mod b)) || ((2 * (a mod b) =? b) && Z.odd (a / b))) eqn:E.
  - apply orb_true_iff in E. destruct E as [E | E].
    + apply Z.ltb_lt in E. nia.
    + apply andb_true_iff in E. destruct E as [E _]. apply Z.eqb_eq in E. nia.
  - apply orb_false_iff in E. destruct E as [E _]. apply Z.ltb_ge in E. nia.
Qed.

Lemma quoRNE_nonneg (a b : Z) : 0 <= a -> 0 < b -> 0 <= Big.quoRNE a b.
Proof.
  intros Ha Hb. unfold Big.quoRNE.
  pose proof (Z.div_pos a b Ha Hb).
  destruct (_ || _); lia.
Qed.

(** Two roundings in a row.  [m] is within half a unit of [a * B / 10^18]
    (the binary quotient, [B] being the weight of its last bit inverted)
    and [n] within half a unit of [m * 10^6 / B] (the decimal digits).
    Then [n] is within half a unit of [a / 10^12], because the binary
    step is finer than one wei: [2 * B > 10^18]. *)
Lemma double_rounding (a m n B : Z) :
  10 ^ 18 < 2 * B ->
  - 10 ^ 18 <= 2 * (m * 10 ^ 18 - a * B) <= 10 ^ 18 ->
  - B <= 2 * (n * B - m * 10 ^ 6) <= B ->
  - 10 ^ 12 <= 2 * (n * 10 ^ 12 - a) <= 10 ^ 12.
Proof.
  intros HB H1 H2.
  change (10 ^ 18) with (10 ^ 12 * 10 ^ 6) in *.
  set (T := 10 ^ 12) in *. set (U := 10 ^ 6) in *.
  assert (HT : T = 1000000000000) by reflexivity.
  assert (HU : U = 1000000) by reflexivity.
  assert (K : - (B * (T + 2)) < 2 * B * (n * T - a) < B * (T + 2)) by nia.
  assert (K2 : - (T + 2) < 2 * (n * T - a) < T + 2) by nia.
  lia.
Qed.

Lemma weiToEth_neg (x : Z) : Big.neg (weiToEth x) = (x <? 0).
Proof.
  unfold weiToEth, Big.SetInt, Big.Quo.
  destruct (Z.eqb_spec x 0) as [-> | Hx]; [reflexivity |].
  cbn [Big.prec Big.neg Big.mant Big.exp].
  repeat match goal with |- context [if ?b then _ else _] => destruct b end;
    cbn [Big.neg]; apply xorb_false_r.
Qed.

(** The digits [weiToEth] renders for [x] are a nearest rounding of
    [|x| / 10^12]: never more than half a millionth of an ether away. *)
Lemma weiToEth_scaled_nearest (x : Z) :
  let n := Big.scaled (weiToEth x) 6 in
  0 <= n /\ - 10 ^ 12 <= 2 * (n * 10 ^ 12 - Z.abs x) <= 10 ^ 12.
Proof.
  unfold weiToEth, Big.SetInt, Big.BitLen.
  destruct (Z.eqb_spec x 0) as [-> | Hx].
  { vm_compute. repeat split; discriminate. }
  set (a := Z.abs x). assert (Ha : 0 < a) by (unfold a; lia).
  set (bits := Z.log2 a + 1).
  pose proof (Z.log2_nonneg a) as Hlog.
  set (p := Z.max bits 64).
  assert (Hp : 0 <= p - bits) by (unfold p; lia).
  set (K := 2 ^ (p - bits)).
  assert (HK : 0 < K) by (apply pow2_pos; exact Hp).
  unfold Big.Quo, Big.NewFloat_1e18.
  cbn [Big.prec Big.neg Big.mant Big.exp].
  destruct (Z.eqb_spec (a * K) 0) as [E0 | _]; [nia |].
  set (ym := 5 ^ 18 * 2 ^ 11).
  set (s := if a * K * 2 ^ 53 <? ym * 2 ^ p then 53 else 53 - 1).
  assert (Hs : s = 52 \/ s = 53) by (unfold s; destruct (_ <? _); lia).
  set (m := Big.quoRNE (a * K * 2 ^ s) ym).
  assert (Hym : 0 < ym) by reflexivity.
  pose proof (quoRNE_bound (a * K * 2 ^ s) ym Hym) as F1. fold m in F1.
  assert (Hm0 : 0 <= m).
  { apply quoRNE_nonneg; [| exact Hym].
    assert (0 < 2 ^ s) by (apply pow2_pos; lia). nia. }
  set (e := bits - p - 7 - s).
  set (B := K * 2 ^ 7 * 2 ^ s).
  assert (HB : 10 ^ 18 < 2 * B).
  { unfold B. assert (2 ^ 52 <= 2 ^ s) by (apply Z.pow_le_mono_r; lia).
    assert (E52 : 2 ^ 52 = 4503599627370496) by reflexivity.
    change (10 ^ 18) with 1000000000000000000. change (2 ^ 7) with 128. nia. }
  assert (HBe : B = 2 ^ (- e)).
  { unfold B, K, e. change 128 with (2 ^ 7).
    rewrite <- !Z.pow_add_r by lia. f_equal. lia. }
  assert (G1 : - 10 ^ 18 <= 2 * (m * 10 ^ 18 - a * B) <= 10 ^ 18).
  { unfold B. replace (10 ^ 18) with (ym * 2 ^ 7) by reflexivity.
    assert (0 < 2 ^ 7) by reflexivity. nia. }
  assert (He : e < -1) by (unfold e; lia).
  destruct (Z.eqb_spec m (2 ^ p)) as [Em | _];
    unfold Big.scaled; cbn [Big.prec Big.neg Big.mant Big.exp].
  - destruct (Z.leb_spec 0 (e + 1)); [lia |].
    set (n := Big.quoRNE (2 ^ (p - 1) * 10 ^ Z.of_nat 6) (2 ^ (- (e + 1)))).
    assert (Hh : 0 < 2 ^ (- (e + 1))) by (apply pow2_pos; lia).
    pose proof (quoRNE_bound (2 ^ (p - 1) * 10 ^ Z.of_nat 6) _ Hh) as F2.
    fold n in F2.
    assert (HB2 : B = 2 * 2 ^ (- (e + 1))).
    { rewrite HBe. replace (- e) with (1 + - (e + 1)) by lia.
      rewrite Z.pow_add_r by lia. reflexivity. }
    assert (Hp2 : m = 2 * 2 ^ (p - 1)).
    { rewrite Em. replace p with (1 + (p - 1)) at 1 by lia.
      rewrite Z.pow_add_r by (unfold p; lia). reflexivity. }
    split.
    + apply quoRNE_nonneg; [| exact Hh].
      assert (0 < 2 ^ (p - 1)) by (apply pow2_pos; unfold p; lia).
      change (10 ^ Z.of_nat 6) with 1000000. lia.
    + apply (double_rounding a m n B HB G1).
      change (10 ^ Z.of_nat 6) with (10 ^ 6) in F2. nia.
  - destruct (Z.leb_spec 0 e); [lia |].
    set (n := Big.quoRNE (m * 10 ^ Z.of_nat 6) (2 ^ (- e))).
    assert (Hh : 0 < 2 ^ (- e)) by (apply pow2_pos; lia).
    pose proof (quoRNE_bound (m * 10 ^ Z.of_nat 6) _ Hh) as F2.
    fold n in F2. rewrite <- HBe in F2.
    split.
    + apply quoRNE_nonneg; [| exact Hh].
      change (10 ^ Z.of_nat 6) with 1000000. lia.
    + apply (double_rounding a m n B HB G1).
      change (10 ^ Z.of_nat 6) with (10 ^ 6) in F2. exact F2.
Qed.

Lemma quoRNE_floor (a b : Z) : a / b <= Big.quoRNE a b <= a / b + 1.
Proof. unfold Big.quoRNE. destruct (_ || _); lia. Qed.

Example NewFloat_1e18_value :
  Big.mant Big.NewFloat_1e18 * 2 ^ Big.exp Big.NewFloat_1e18 = 10 ^ 18
  /\ 2 ^ 52 <= Big.mant Big.NewFloat_1e18 < 2 ^ 53.
Proof. split; [reflexivity | split; [discriminate | reflexivity]]. Qed.

(** [SetInt] is exact and [Quo] returns a normalised mantissa: the model
    of [weiToEth x] is a Float of [max(x.BitLen(), 64)] bits. *)
Lemma weiToEth_normalised (x : Z) :
  x <> 0 ->
  let f := Big.SetInt x in
  let q := weiToEth x in
  Big.mant f = Z.abs x * 2 ^ (- Big.exp f)
  /\ Big.prec q = Z.max (Big.BitLen x) 64
  /\ 2 ^ (Big.prec q - 1) <= Big.mant q < 2 ^ Big.prec q.
Proof.
  intros Hx. unfold weiToEth, Big.SetInt, Big.BitLen.
  destruct (Z.eqb_spec x 0) as [E | _]; [contradiction |].
  set (a := Z.abs x). assert (Ha : 0 < a) by (unfold a; lia).
  set (bits := Z.log2 a + 1).
  pose proof (Z.log2_nonneg a) as Hlog.
  pose proof (Z.log2_spec a Ha) as [Hlo Hhi].
  set (p := Z.max bits 64).
  assert (Hp : 0 <= p - bits) by (unfold p; lia).
  set (K := 2 ^ (p - bits)).
  assert (HK : 0 < K) by (apply pow2_pos; exact Hp).
  cbv zeta. cbn [Big.prec Big.neg Big.mant Big.exp].
  split; [unfold K; f_equal; f_equal; lia |].
  unfold Big.Quo, Big.NewFloat_1e18.
  cbn [Big.prec Big.neg Big.mant Big.exp].
  destruct (Z.eqb_spec (a * K) 0) as [E0 | _]; [nia |].
  set (ym := 5 ^ 18 * 2 ^ 11).
  assert (Hym : 2 ^ 52 <= ym < 2 ^ 53) by (split; [discriminate | reflexivity]).
  assert (HaK : 2 ^ (p - 1) <= a * K < 2 ^ p).
  { assert (E1 : 2 ^ (p - 1) = 2 ^ Z.log2 a * K).
    { unfold K. rewrite <- Z.pow_add_r by lia. f_equal. unfold bits. lia. }
    assert (E2 : 2 ^ p = 2 ^ Z.succ (Z.log2 a) * K).
    { unfold K. rewrite <- Z.pow_add_r by lia. f_equal. unfold bits. lia. }
    rewrite E1, E2. nia. }
  assert (Hpp : 2 ^ p = 2 * 2 ^ (p - 1)).
  { replace p with (1 + (p - 1)) at 1 by lia.
    rewrite Z.pow_add_r by (unfold p; lia). reflexivity. }
  set (P := 2 ^ (p - 1)) in *. assert (HP : 0 < P) by (apply pow2_pos; unfold p; lia).
  change (2 ^ 53) with (2 * 2 ^ 52) in *. set (Q := 2 ^ 52) in *.
  assert (HQ : 0 < Q) by reflexivity.
  set (s := if a * K * (2 * Q) <? ym * 2 ^ p then 53 else 53 - 1).
  set (m := Big.quoRNE (a * K * 2 ^ s) ym).
  assert (Hm : P <= m <= 2 ^ p).
  { pose proof (quoRNE_floor (a * K * 2 ^ s) ym) as Hf. fold m in Hf.
    unfold s in *. destruct (Z.ltb_spec (a * K * (2 * Q)) (ym * 2 ^ p)) as [C | C].
    - change (2 ^ 53) with (2 * Q) in *.
      assert (P <= a * K * (2 * Q) / ym) by (apply Z.div_le_lower_bound; nia).
      assert (a * K * (2 * Q) / ym < 2 ^ p) by (apply Z.div_lt_upper_bound; nia).
      lia.
    - change (2 ^ (53 - 1)) with Q in *.
      assert (P <= a * K * Q / ym) by (apply Z.div_le_lower_bound; nia).
      assert (a * K * Q / ym < 2 ^ p) by (apply Z.div_lt_upper_bound; nia).
      lia. }
  destruct (Z.eqb_spec m (2 ^ p)) as [Em | Nm];
    cbn [Big.prec Big.neg Big.mant Big.exp]; (split; [reflexivity | lia]).
Qed.

(* ===================================================================== *)
(** ** Reading and writing digits *)
(* ===================================================================== *)

Lemma digitVal_digitChar (d : Z) : 0 <= d < 16 -> Big.digitVal (Big.digitChar d) = d.
Proof.
  intros H.
  assert (C : d = 0 \/ d = 1 \/ d = 2 \/ d = 3 \/ d = 4 \/ d = 5 \/ d = 6 \/ d = 7
              \/ d = 8 \/ d = 9 \/ d = 10 \/ d = 11 \/ d = 12 \/ d = 13 \/ d = 14
              \/ d = 15) by lia.
  repeat (destruct C as [-> | C]; [reflexivity |]). subst d. reflexivity.
Qed.

Lemma scanSign_other (ch : ascii) (s : string) :
  ch <> "-"%char -> ch <> "+"%char ->
  Big.scanSign (String ch s) = Some (false, String ch s).
Proof.
  intros Hm Hp. unfold Big.scanSign.
  destruct ch as [[] [] [] [] [] [] [] []]; try reflexivity; congruence.
Qed.

Lemma digitChar_not_sign (d : Z) :
  0 <= d < 16 -> Big.digitChar d <> "-"%char /\ Big.digitChar d <> "+"%char.
Proof.
  intros H. pose proof (digitVal_digitChar d H) as E.
  split; intros C; rewrite C in E; vm_compute in E; lia.
Qed.

Section Digits.

Variable b : Z.
Hypothesis Hb : 2 <= b <= 16.

Lemma scanDigits_digitChar (d : Z) (s : string) (acc : Z) (count : nat) :
  0 <= d < b ->
  Big.scanDigits b (String (Big.digitChar d) s) acc count
  = Big.scanDigits b s (acc * b + d) (S count).
Proof.
  intros Hd. cbn [Big.scanDigits].
  rewrite digitVal_digitChar by lia.
  destruct (Z.leb_spec b d); [lia | reflexivity].
Qed.

(** Reading back what [utoa] wrote: the digits of [n] shift the
    accumulator and add [n]. *)
Lemma scanDigits_utoa (fuel : nat) :
  forall (n : Z) (rest : string),
    (0 < fuel)%nat -> 0 <= n < b ^ Z.of_nat fuel ->
    exists k : nat,
      (0 < k)%nat /\
      forall acc count,
        Big.scanDigits b (Big.utoa fuel b n rest) acc count
        = Big.scanDigits b rest (acc * b ^ Z.of_nat k + n) (count + k).
Proof.
  induction fuel as [| fuel IH]; intros n rest Hf Hn; [lia |].
  cbn [Big.utoa].
  pose proof (Z.mod_pos_bound n b ltac:(lia)) as Hr.
  pose proof (Z.div_mod n b ltac:(lia)) as Hdm.
  destruct (Z.eqb_spec (n / b) 0) as [E | E].
  - exists 1%nat. split; [lia |]. intros acc count.
    rewrite scanDigits_digitChar by lia.
    rewrite Nat.add_1_r. f_equal. change (Z.of_nat 1) with 1. lia.
  - assert (Hq : 0 < n / b) by (pose proof (Z.div_pos n b ltac:(lia) ltac:(lia)); lia).
    assert (Hq2 : n / b < b ^ Z.of_nat fuel).
    { apply Z.div_lt_upper_bound; [lia |].
      rewrite Nat2Z.inj_succ, Z.pow_succ_r in Hn by lia. lia. }
    assert (Hf' : (0 < fuel)%nat).
    { destruct fuel; [| lia]. change (b ^ Z.of_nat 0) with 1 in Hq2. lia. }
    destruct (IH (n / b) (String (Big.digitChar (n mod b)) rest) Hf' ltac:(lia))
      as (k & Hk & IHk).
    exists (S k). split; [lia |]. intros acc count.
    rewrite IHk, scanDigits_digitChar by lia.
    rewrite Nat2Z.inj_succ, Z.pow_succ_r by lia.
    rewrite Nat.add_succ_r. f_equal. nia.
Qed.

Lemma utoa_head (fuel : nat) :
  forall (n : Z) (rest : string),
    0 <= n ->
    exists d tl, 0 <= d < b /\ Big.utoa (S fuel) b n rest = String (Big.digitChar d) tl.
Proof.
  induction fuel as [| fuel IH]; intros n rest Hn;
    pose proof (Z.mod_pos_bound n b ltac:(lia)) as Hr.
  - cbn [Big.utoa]. destruct (n / b =? 0); eauto.
  - change (Big.utoa (S (S fuel)) b n rest)
      with (let acc' := String (Big.digitChar (n mod b)) rest in
            if n / b =? 0 then acc' else Big.utoa (S fuel) b (n / b) acc').
    cbv zeta. destruct (n / b =? 0); [eauto |].
    apply IH. apply Z.div_pos; lia.
Qed.

Lemma fuel_enough (n : Z) :
  0 <= n -> n < b ^ Z.of_nat (S (Z.to_nat (Z.log2 n))).
Proof.
  intros Hn. rewrite Nat2Z.inj_succ, Z2Nat.id by apply Z.log2_nonneg.
  destruct (Z.eq_dec n 0) as [-> | Hn0].
  - apply Z.pow_pos_nonneg; [lia | cbn; lia].
  - pose proof (Z.log2_spec n ltac:(lia)) as [_ Hlt].
    apply Z.lt_le_trans with (1 := Hlt).
    apply Z.pow_le_mono_l. lia.
Qed.

(** [SetString] reads back what [itoa] wrote. *)
Lemma SetString_itoa (x : Z) : Big.SetString (Big.itoa b x) b = (x, true).
Proof.
  unfold Big.itoa, Big.SetString.
  set (n := Z.abs x). assert (Hn : 0 <= n) by (unfold n; lia).
  set (fuel := Z.to_nat (Z.log2 n)).
  destruct (utoa_head fuel n "" Hn) as (d & tl & Hd & Hhead).
  destruct (scanDigits_utoa (S fuel) n "" ltac:(lia)
              ltac:(split; [exact Hn | apply fuel_enough; exact Hn]))
    as (k & Hk & Hscan).
  destruct (digitChar_not_sign d ltac:(lia)) as [Hm Hp].
  destruct (Z.ltb_spec x 0) as [Hx | Hx].
  - cbn [append Big.scanSign]. rewrite Hscan. cbn [Big.scanDigits].
    destruct k as [| k]; [lia |]. cbn [Nat.add]. f_equal. unfold n. lia.
  - cbn [append]. rewrite Hhead, scanSign_other by assumption.
    rewrite <- Hhead, Hscan. cbn [Big.scanDigits].
    destruct k as [| k]; [lia |]. cbn [Nat.add]. f_equal. unfold n. lia.
Qed.

End Digits.

Lemma isHexDigit_digitVal (ch : ascii) :
  isHexDigit ch = true ->
  Big.digitVal ch = hexDigitValue ch /\ 0 <= Big.digitVal ch < 16.
Proof.
  unfold isHexDigit, Big.digitVal, hexDigitValue.
  set (c := Z.of_N (N_of_ascii ch)). intros H.
  repeat match goal with
         | |- context [?x <=? ?y] => destruct (Z.leb_spec x y)
         | H : context [?x <=? ?y] |- _ => destruct (Z.leb_spec x y)
         end; cbn in H |- *; try discriminate H; lia.
Qed.

Lemma isHexDigit_not_sign (ch : ascii) :
  isHexDigit ch = true -> ch <> "-"%char /\ ch <> "+"%char.
Proof. intros H; split; intros ->; discriminate H. Qed.

Lemma scanDigits_allHex (s : string) :
  allHex s = true ->
  forall acc count,
    Big.scanDigits 16 s acc count
    = (hexValueFrom acc s, (count + String.length s)%nat, "").
Proof.
  induction s as [| ch s IH]; intros H acc count.
  - cbn. rewrite Nat.add_0_r. reflexivity.
  - cbn [allHex] in H. apply andb_true_iff in H. destruct H as [Hc Hs].
    destruct (isHexDigit_digitVal ch Hc) as [E R].
    cbn [Big.scanDigits hexValueFrom String.length].
    destruct (Z.leb_spec 16 (Big.digitVal ch)); [lia |].
    rewrite IH by exact Hs. rewrite E, Nat.add_succ_r. reflexivity.
Qed.

Lemma hexToBig_allHex (s : string) :
  allHex (Strings.TrimPrefix s "0x") = true ->
  hexToBig s = hexValue (Strings.TrimPrefix s "0x").
Proof.
  unfold hexToBig, Big.SetString, hexValue.
  destruct (Strings.TrimPrefix s "0x") as [| ch r] eqn:E; intros H.
  - reflexivity.
  - pose proof H as H'. cbn [allHex] in H'. apply andb_true_iff in H'.
    destruct H' as [Hc _]. destruct (isHexDigit_not_sign ch Hc) as [Hm Hp].
    rewrite scanSign_other by assumption.
    rewrite (scanDigits_allHex _ H). reflexivity.
Qed.

Lemma TrimPrefix_0x (r : string) : Strings.TrimPrefix ("0x" ++ r) "0x" = r.
Proof. reflexivity. Qed.

Lemma hexToBig_Format_x (n : Z) :
  hexToBig ("0x" ++ Big.Format_x n) = n.
Proof.
  unfold hexToBig. rewrite TrimPrefix_0x. unfold Big.Format_x.
  rewrite (SetString_itoa 16) by lia. reflexivity.
Qed.

Example hexToBig_256 :
  hexToBig "0xffffffffffffffffffffffffffffffffffffffffffffffffffffffffffffffff"
  = 2 ^ 256 - 1.
Proof. vm_compute. reflexivity. Qed.

Lemma fixedDigits_length (k : nat) :
  forall n acc, String.length (Big.fixedDigits k n acc) = (k + String.length acc)%nat.
Proof.
  induction k as [| k IH]; intros n acc; cbn [Big.fixedDigits].
  - reflexivity.
  - rewrite IH. cbn [String.length]. lia.
Qed.

Lemma scanDigits_fixedDigits (k : nat) :
  forall n rest acc count,
    0 <= n ->
    Big.scanDigits 10 (Big.fixedDigits k n rest) acc count
    = Big.scanDigits 10 rest (acc * 10 ^ Z.of_nat k + n mod 10 ^ Z.of_nat k)
        (count + k).
Proof.
  induction k as [| k IH]; intros n rest acc count Hn; cbn [Big.fixedDigits].
  - change (10 ^ Z.of_nat 0) with 1. rewrite Z.mod_1_r, Nat.add_0_r.
    f_equal. lia.
  - pose proof (Z.mod_pos_bound n 10 ltac:(lia)) as Hr.
    rewrite IH by (apply Z.div_pos; lia).
    rewrite (scanDigits_digitChar 10) by lia.
    rewrite Nat2Z.inj_succ, Z.pow_succ_r by lia.
    rewrite Nat.add_succ_r.
    assert (P : 0 < 10 ^ Z.of_nat k) by (apply Z.pow_pos_nonneg; lia).
    rewrite (Z.rem_mul_r n 10 (10 ^ Z.of_nat k)) by lia.
    f_equal. ring.
Qed.

Lemma append_assoc (a b c : string) : (a ++ b) ++ c = a ++ (b ++ c).
Proof. induction a as [| ch a IH]; cbn; [reflexivity | rewrite IH; reflexivity]. Qed.

Lemma utoa_app (fuel : nat) (b : Z) :
  forall n acc, Big.utoa fuel b n acc = Big.utoa fuel b n "" ++ acc.
Proof.
  induction fuel as [| fuel IH]; intros n acc; cbn [Big.utoa].
  - reflexivity.
  - destruct (n / b =? 0).
    + reflexivity.
    + rewrite IH. rewrite (IH _ (String _ "")).
      rewrite append_assoc. reflexivity.
Qed.

(** The text of a non-negative amount: digits, point, six digits, which
    read back as the amount in millionths. *)
Lemma Text_f_shape (x : Big.Float) :
  0 <= Big.scaled x 6 ->
  exists ip fp,
    Big.Text_f x 6 = (if Big.neg x then "-" else "") ++ ip ++ "." ++ fp
    /\ String.length fp = 6%nat
    /\ Big.SetString (ip ++ fp) 10 = (Big.scaled x 6, true).
Proof.
  intros Hn. unfold Big.Text_f.
  set (n := Big.scaled x 6) in *.
  change (10 ^ Z.of_nat 6) with 1000000.
  assert (Hq : 0 <= n / 1000000) by (apply Z.div_pos; lia).
  exists (Big.itoa 10 (n / 1000000)), (Big.fixedDigits 6 (n mod 1000000) "").
  split; [reflexivity |]. split; [apply fixedDigits_length |].
  unfold Big.itoa, Big.SetString.
  destruct (Z.ltb_spec (n / 1000000) 0) as [C | _]; [lia |].
  rewrite Z.abs_eq by exact Hq. cbn [append].
  set (fuel := Z.to_nat (Z.log2 (n / 1000000))).
  rewrite <- utoa_app.
  destruct (utoa_head 10 ltac:(lia) fuel (n / 1000000)
              (Big.fixedDigits 6 (n mod 1000000) "") Hq)
    as (d & tl & Hd & Hhead).
  destruct (digitChar_not_sign d ltac:(lia)) as [Hm Hp].
  rewrite Hhead, scanSign_other by assumption. rewrite <- Hhead.
  destruct (scanDigits_utoa 10 ltac:(lia) (S fuel) (n / 1000000)
              (Big.fixedDigits 6 (n mod 1000000) "") ltac:(lia)
              ltac:(split; [exact Hq | apply fuel_enough; lia]))
    as (k & Hk & Hscan).
  rewrite Hscan.
  rewrite scanDigits_fixedDigits by (apply Z.mod_pos_bound; lia).
  cbn [Big.scanDigits]. destruct k as [| k]; [lia |]. cbn [Nat.add].
  f_equal. change (10 ^ Z.of_nat 6) with 1000000.
  rewrite Z.mod_mod by lia.
  pose proof (Z.div_mod n 1000000 ltac:(lia)). lia.
Qed.

Lemma hexValueFrom_nonneg (s : string) :
  allHex s = true -> forall acc, 0 <= acc -> 0 <= hexValueFrom acc s.
Proof.
  induction s as [| ch s IH]; intros H acc Hacc; cbn [hexValueFrom].
  - exact Hacc.
  - cbn [allHex] in H. apply andb_true_iff in H. destruct H as [Hc Hs].
    destruct (isHexDigit_digitVal ch Hc) as [E R].
    apply IH; [exact Hs | lia].
Qed.

(* ===================================================================== *)
(** ** The numeric codec: claims C3 and C4 *)
(* ===================================================================== *)

(** C3 as stated does not hold.  The claim has [weiToEth] divide in decimal
    arithmetic and round the sixth decimal by one rounding mode.  The
    program divides in binary floating point, so an amount that is an exact
    decimal tie reaches the decimal rounding already moved off the tie, up
    or down: 0.5 and 1.5 millionths both render as 1 millionth and 2.5 as 2,
    which no rounding mode of the exact quotient produces. *)
Lemma weiToEth_not_decimal_rounding :
  Big.Text_f (weiToEth 500000000000) 6 = "0.000001"
  /\ Big.Text_f (weiToEth 1500000000000) 6 = "0.000001"
  /\ Big.Text_f (weiToEth 2500000000000) 6 = "0.000002"
  /\ weiToEther_spec HalfEven 500000000000 = "0.000000"
  /\ ~ (exists mode, forall n,
           0 <= n -> Big.Text_f (weiToEth n) 6 = weiToEther_spec mode n).
Proof.
  split; [vm_compute; reflexivity |].
  split; [vm_compute; reflexivity |].
  split; [vm_compute; reflexivity |].
  split; [vm_compute; reflexivity |].
  intros [mode H].
  pose proof (H 500000000000 ltac:(lia)) as H1.
  pose proof (H 1500000000000 ltac:(lia)) as H2.
  pose proof (H 2500000000000 ltac:(lia)) as H3.
  destruct mode; vm_compute in H1, H2, H3; discriminate.
Qed.

(** C3, amended.  For every amount [x] of wei, the text of [weiToEth x] is
    the sign, an integer part, a point and exactly six digits; the digits
    read as a number [n] of millionths that is within half a millionth of
    [|x| / 10^18] ether (a rounding to nearest).  On every non-negative
    amount that is not an exact tie ([x mod 10^12 <> 5 * 10^11]) the text
    is the one decimal arithmetic gives with round-half-to-even.  For
    10^18 wei the text is "1.000000". *)
Theorem weiToEth_text (x : Z) :
  (exists ip fp n,
      Big.Text_f (weiToEth x) 6 = (if x <? 0 then "-" else "") ++ ip ++ "." ++ fp
      /\ String.length fp = 6%nat
      /\ Big.SetString (ip ++ fp) 10 = (n, true)
      /\ - 10 ^ 12 <= 2 * (n * 10 ^ 12 - Z.abs x) <= 10 ^ 12)
  /\ (0 <= x -> x mod 10 ^ 12 <> 5 * 10 ^ 11 ->
      Big.Text_f (weiToEth x) 6 = weiToEther_spec HalfEven x)
  /\ Big.Text_f (weiToEth (10 ^ 18)) 6 = "1.000000".
Proof.
  destruct (weiToEth_scaled_nearest x) as [Hn Hnear].
  split; [| split].
  - destruct (Text_f_shape (weiToEth x) Hn) as (ip & fp & Htext & Hlen & Hread).
    exists ip, fp, (Big.scaled (weiToEth x) 6).
    rewrite weiToEth_neg in Htext. auto.
  - intros Hx Htie.
    unfold Big.Text_f, weiToEther_spec.
    rewrite weiToEth_neg.
    destruct (Z.ltb_spec x 0) as [C | _]; [lia |]. cbn [append].
    set (n := Big.scaled (weiToEth x) 6) in *.
    change (roundQuo HalfEven x (10 ^ 12)) with (Big.quoRNE x (10 ^ 12)).
    pose proof (quoRNE_bound x (10 ^ 12) ltac:(reflexivity)) as Hq.
    set (q := Big.quoRNE x (10 ^ 12)) in *.
    rewrite Z.abs_eq in Hnear by exact Hx.
    change (10 ^ 12) with 1000000000000 in *.
    change (5 * 10 ^ 11) with 500000000000 in Htie.
    assert (E : n = q).
    { destruct (Z.eq_dec n q) as [E | NE]; [exact E | exfalso].
      assert (D : n = q + 1 \/ q = n + 1) by lia.
      apply Htie. symmetry.
      destruct D as [D | D].
      - apply (Z.mod_unique_pos x 1000000000000 q); lia.
      - apply (Z.mod_unique_pos x 1000000000000 n); lia. }
    rewrite E. reflexivity.
  - vm_compute. reflexivity.
Qed.

Lemma weiToEth_text_witness :
  Big.Text_f (weiToEth (15 * 10 ^ 17)) 6 = weiToEther_spec HalfEven (15 * 10 ^ 17).
Proof.
  apply (proj1 (proj2 (weiToEth_text (15 * 10 ^ 17))));
    vm_compute; discriminate.
Defined.

(** C4 as stated does not hold: [hexToBig] has no failure.  On "0xzz" the
    specification's [decodeHex] fails, [SetString] reports failure, and
    [hexToBig] drops the flag and returns 0; a run whose balances are
    "0xzz" prints a report with a zero balance. *)
Lemma hexToBig_ignores_non_hex :
  decodeHex_spec "0xzz" = None
  /\ Big.SetString "zz" 16 = (0, false)
  /\ hexToBig "0xzz" = 0
  /\ Some (hexToBig "0xzz") <> decodeHex_spec "0xzz"
  /\ main unit (node (chain "0x10" "0xzz" "0xzz" "0x5" "0x5" "0x")) sample_env tt
     = Printed (mkReport "0x00000000000000000000000000000000000000aa" "0x10" 0
                  [] "0.000000").
Proof.
  split; [reflexivity |].
  split; [reflexivity |].
  split; [reflexivity |].
  split; [discriminate |].
  vm_compute. reflexivity.
Qed.

(** C4, amended.  For every input string, [hexToBig] strips an optional
    "0x" prefix and, when the remainder holds hex digits only, returns the
    value of the remainder as a non-negative base-16 integer of unbounded
    width: every natural number is read back from its "0x" rendering, 256
    bits and more.  (There is no failure; what a remainder with other
    characters yields is left open.) *)
Theorem hexToBig_decodes_hex (s : string) (v : Z) :
  decodeHex_spec s = Some v ->
  hexToBig s = v
  /\ 0 <= v
  /\ (forall n : N, hexToBig ("0x" ++ Big.Format_x (Z.of_N n)) = Z.of_N n)
  /\ hexToBig ("0x" ++ Big.Format_x (2 ^ 256 - 1)) = 2 ^ 256 - 1.
Proof.
  unfold decodeHex_spec.
  destruct (allHex (Strings.TrimPrefix s "0x")) eqn:H; [| discriminate].
  intros [= <-].
  split; [apply hexToBig_allHex; exact H |].
  split; [apply hexValueFrom_nonneg; [exact H | lia] |].
  split; [intros n |]; apply hexToBig_Format_x.
Qed.

Lemma hexToBig_decodes_hex_witness :
  hexToBig "0xffffffffffffffffffffffffffffffffffffffffffffffffffffffffffffffff"
  = 2 ^ 256 - 1.
Proof.
  apply (hexToBig_decodes_hex
           "0xffffffffffffffffffffffffffffffffffffffffffffffffffffffffffffffff"
           (2 ^ 256 - 1)).
  vm_compute. reflexivity.
Defined.

(* ===================================================================== *)
(** ** The three rules: claims C5, C6 and C9 *)
(* ===================================================================== *)

Lemma Sign_gtb (x : Z) : (Big.Sign x >? 0) = (0 <? x).
Proof. unfold Big.Sign. destruct x; reflexivity. Qed.

Lemma Cmp_gtb (x y : Z) : (Big.Cmp x y >? 0) = (y <? x).
Proof.
  unfold Big.Cmp. rewrite Z.ltb_antisym.
  destruct (Z.compare_spec x y) as [-> | H | H]; cbn.
  - rewrite Z.leb_refl. reflexivity.
  - destruct (Z.leb_spec x y); [reflexivity | lia].
  - destruct (Z.leb_spec x y); [lia | reflexivity].
Qed.

(** The 64-bit addition does not wrap on sums that fit. *)
Lemma int_add_small (a b : Z) :
  - 2 ^ 63 <= a + b < 2 ^ 63 -> int_add a b = a + b.
Proof.
  intros H. unfold int_add.
  rewrite Z.mod_small by lia. lia.
Qed.

Lemma small_score (score k : Z) :
  0 <= score <= 100 -> 0 <= k <= 100 -> - 2 ^ 63 <= score + k < 2 ^ 63.
Proof. intros. change (2 ^ 63) with 9223372036854775808. lia. Qed.

Lemma app_one_neq {A} (l : list A) (x : A) : (l ++ [x])%list <> l.
Proof.
  intros E. apply (f_equal (@List.length A)) in E.
  rewrite List.length_app in E. cbn in E. lia.
Qed.

(** C5.  For every pair of nonces and every state of the score, the
    activity rule adds 25 and appends its one reason exactly when
    [nonceNow - noncePast] is strictly above 20, and otherwise changes
    nothing; a delta of 20 changes nothing and a delta of 21 adds 25 and
    the reason "high tx activity: +21 nonce/100 blocks". *)
Theorem nonce_rule_threshold (nonceNow noncePast score : Z) (reasons : list string) :
  0 <= score <= 100 ->
  let nonceDiff := nonceNow - noncePast in
  let st' := nonce_rule nonceDiff (score, reasons) in
  (20 < nonceDiff <-> fst st' = score + 25)
  /\ (20 < nonceDiff <-> snd st' = (reasons ++ [reason_nonce nonceDiff])%list)
  /\ (nonceDiff <= 20 <-> st' = (score, reasons))
  /\ nonce_rule 20 (score, reasons) = (score, reasons)
  /\ nonce_rule 21 (score, reasons)
     = (score + 25, (reasons ++ ["high tx activity: +21 nonce/100 blocks"])%list).
Proof.
  intros Hs nonceDiff st'. subst st'. unfold nonce_rule.
  rewrite !Cmp_gtb.
  rewrite (int_add_small score 25) by (apply small_score; lia).
  change (20 <? 20) with false. change (20 <? 21) with true.
  pose proof (app_one_neq reasons (reason_nonce nonceDiff)) as Hne.
  destruct (Z.ltb_spec 20 nonceDiff) as [H | H]; cbn [fst snd].
  - repeat split; try reflexivity; try lia; intros; try lia.
    injection H0 as E _. lia.
  - repeat split; try reflexivity; try lia; intros; try lia.
    symmetry in H0. contradiction.
Qed.

Lemma nonce_rule_threshold_witness :
  nonce_rule 21 (35, ["balance drop ~0.500000 ETH/100 blocks"])
  = (60, ["balance drop ~0.500000 ETH/100 blocks";
          "high tx activity: +21 nonce/100 blocks"]).
Proof.
  apply (proj2 (proj2 (proj2 (proj2
           (nonce_rule_threshold 26 5 35 ["balance drop ~0.500000 ETH/100 blocks"]
              ltac:(lia)))))).
Defined.

(** C6.  For every pair of balances and every state of the score: when
    [balPast > balLatest] the balance rule adds exactly 35 and appends
    exactly one reason, "balance drop ~<e> ETH/100 blocks", where [<e>] is
    the drained amount in ether with six digits after the point (digits
    that read as the millionths nearest to the amount); when
    [balPast <= balLatest] it changes nothing.  Draining half an ether
    gives "balance drop ~0.500000 ETH/100 blocks". *)
Theorem balance_rule_drain (balPast balLatest score : Z) (reasons : list string) :
  0 <= score <= 100 ->
  let balDiff := balPast - balLatest in
  let st' := balance_rule balDiff (score, reasons) in
  (balLatest < balPast ->
   st' = (score + 35, (reasons ++ [reason_balance balDiff])%list)
   /\ exists ip fp n,
       reason_balance balDiff
       = "balance drop ~" ++ (ip ++ "." ++ fp) ++ " ETH/100 blocks"
       /\ String.length fp = 6%nat
       /\ Big.SetString (ip ++ fp) 10 = (n, true)
       /\ - 10 ^ 12 <= 2 * (n * 10 ^ 12 - balDiff) <= 10 ^ 12)
  /\ (balPast <= balLatest -> st' = (score, reasons))
  /\ balance_rule (2 * 10 ^ 18 - 15 * 10 ^ 17) (score, reasons)
     = (score + 35, (reasons ++ ["balance drop ~0.500000 ETH/100 blocks"])%list).
Proof.
  intros Hs balDiff st'. subst st'. unfold balance_rule.
  rewrite !Sign_gtb.
  rewrite (int_add_small score 35) by (apply small_score; lia).
  split; [| split].
  - intros Hd. destruct (Z.ltb_spec 0 balDiff) as [_ | C]; [| lia].
    split; [reflexivity |].
    destruct (weiToEth_scaled_nearest balDiff) as [Hn Hnear].
    destruct (Text_f_shape (weiToEth balDiff) Hn)
      as (ip & fp & Htext & Hlen & Hread).
    exists ip, fp, (Big.scaled (weiToEth balDiff) 6).
    rewrite weiToEth_neg in Htext.
    destruct (Z.ltb_spec balDiff 0) as [C | _]; [lia |].
    cbn [append] in Htext.
    rewrite Z.abs_eq in Hnear by lia.
    unfold reason_balance. rewrite Htext. auto.
  - intros Hd. destruct (Z.ltb_spec 0 balDiff) as [C | _]; [lia | reflexivity].
  - assert (E : reason_balance (2 * 10 ^ 18 - 15 * 10 ^ 17)
                = "balance drop ~0.500000 ETH/100 blocks")
      by (vm_compute; reflexivity).
    rewrite E. reflexivity.
Qed.

Lemma balance_rule_drain_witness :
  balance_rule (2 * 10 ^ 18 - 15 * 10 ^ 17) (0, [])
  = (35, ["balance drop ~" ++ Big.Text_f (weiToEth (5 * 10 ^ 17)) 6
            ++ " ETH/100 blocks"]).
Proof.
  apply (proj1 (proj1 (balance_rule_drain (2 * 10 ^ 18) (15 * 10 ^ 17) 0 []
                         ltac:(lia)) ltac:(lia))).
Defined.

Lemma decodeBody_length (bytes : list Z) :
  forall s, decodeBody s = Some bytes ->
            String.length s = (1 + 2 * List.length bytes)%nat.
Proof.
  induction bytes as [| v bytes IH]; intros s H.
  - destruct s as [| a [| b r]]; cbn in H; try discriminate H.
    + reflexivity.
    + destruct (isHexDigit a && isHexDigit b); [| discriminate H].
      destruct (decodeBody r); discriminate H.
  - destruct s as [| a [| b r]]; try discriminate H.
    + cbn in H. destruct (Ascii.eqb a "034"); discriminate H.
    + cbn [decodeBody] in H.
      destruct (isHexDigit a && isHexDigit b); [| discriminate H].
      destruct (decodeBody r) as [bs |] eqn:E; [| discriminate H].
      injection H as _ ->. cbn [String.length List.length].
      rewrite (IH r E). lia.
Qed.

(** A well-formed code message is four bytes longer than twice its code. *)
Lemma decodedBytes_len (raw : RawMessage) (bytes : list Z) :
  decodedBytes_spec raw = Some bytes ->
  Strings.len raw = 4 + 2 * Z.of_nat (List.length bytes).
Proof.
  unfold decodedBytes_spec, Strings.len.
  destruct raw as [| q [| z [| x body]]]; try discriminate.
  destruct (Ascii.eqb q "034" && Ascii.eqb z "0" && Ascii.eqb x "x");
    [| discriminate].
  intros H. apply decodeBody_length in H. cbn [String.length]. lia.
Qed.

Example decodedBytes_samples :
  decodedBytes_spec (quoted "0x6080") = Some [96; 128]
  /\ decodedBytes_spec (quoted "0x608") = None
  /\ decodedBytes_spec "null" = None.
Proof. repeat split; reflexivity. Qed.

(** C9.  For every code result (a quoted "0x" hex string that decodes to
    [bytes]) the test of the program, [len(codeNowRaw) > 4], is true
    exactly when the decoded byte length is greater than zero; the empty
    code "0x" decodes to no byte and fails the test; and when the test is
    true the code rule adds 10 and appends exactly one reason, otherwise
    it changes nothing. *)
Theorem code_presence (raw : RawMessage) (bytes : list Z)
  (score : Z) (reasons : list string) :
  decodedBytes_spec raw = Some bytes ->
  0 <= score <= 100 ->
  ((Strings.len raw >? 4) = true <-> (0 < List.length bytes)%nat)
  /\ code_rule raw (score, reasons)
     = (if (0 <? List.length bytes)%nat
        then (score + 10, (reasons ++ [reason_code])%list)
        else (score, reasons))
  /\ decodedBytes_spec (quoted "0x") = Some []
  /\ code_rule (quoted "0x") (score, reasons) = (score, reasons).
Proof.
  intros Hdec Hs. apply decodedBytes_len in Hdec.
  unfold code_rule.
  rewrite (int_add_small score 10) by (apply small_score; lia).
  rewrite Z.gtb_ltb.
  split; [| split; [| split; reflexivity]].
  - rewrite Z.ltb_lt. lia.
  - destruct (Z.ltb_spec 4 (Strings.len raw)) as [H | H];
      destruct (Nat.ltb_spec 0 (List.length bytes)) as [H' | H'];
      try reflexivity; lia.
Qed.

Lemma code_presence_witness :
  ((Strings.len (quoted "0x6080") >? 4) = true <-> (0 < 2)%nat)
  /\ code_rule (quoted "0x6080") (25, ["high tx activity: +21 nonce/100 blocks"])
     = (35, ["high tx activity: +21 nonce/100 blocks"; reason_code]).
Proof.
  pose proof (code_presence (quoted "0x6080") [96; 128] 25
                ["high tx activity: +21 nonce/100 blocks"]
                ltac:(reflexivity) ltac:(lia)) as [H1 [H2 _]].
  split; [exact H1 | exact H2].
Defined.

(* ===================================================================== *)
(** ** Runs of [main]: claims C1, C2, C7, C8 and C10 *)
(* ===================================================================== *)

(** Score and reasons in closed form: each rule adds its weight and its
    reason when its test holds, in the order balance, nonce, code.  The sum
    is at most 70, so neither the 64-bit addition nor the clamp changes
    it. *)
Lemma heuristics_spec (balDiff nonceDiff : Z) (codeNowRaw : RawMessage) :
  heuristics balDiff nonceDiff codeNowRaw
  = ((if 0 <? balDiff then 35 else 0) + (if 20 <? nonceDiff then 25 else 0)
     + (if 4 <? Strings.len codeNowRaw then 10 else 0),
     (if 0 <? balDiff then [reason_balance balDiff] else [])
       ++ (if 20 <? nonceDiff then [reason_nonce nonceDiff] else [])
       ++ (if 4 <? Strings.len codeNowRaw then [reason_code] else []))%list.
Proof.
  unfold heuristics, code_rule, nonce_rule, balance_rule.
  rewrite Sign_gtb, Cmp_gtb, Z.gtb_ltb.
  destruct (0 <? balDiff), (20 <? nonceDiff), (4 <? Strings.len codeNowRaw);
    reflexivity.
Qed.

Section RunFacts.

Variable World : Type.
Variable post : World -> string -> rpcReq -> exchange * World.

Lemma bind_unfold {A B} (c : M World A) (k : A -> M World B) (s : state World) :
  bind c k s =
  match c s with
  | (Ok a, s') => k a s'
  | (Abort why, s') => (Abort why, s')
  end.
Proof. reflexivity. Qed.

(** [call] never ends the run: it returns a message and an error, adds
    the call to the history, and the message is nil when there is an
    error. *)
Lemma call_spec (url method : string) (params : list string) (s : state World) :
  exists raw err w',
    call World post url method params s
    = (Ok (raw, err), (w', (snd s ++ [mkCall method params raw err])%list))
    /\ (err <> None -> raw = "").
Proof.
  unfold call.
  destruct (post (fst s) url (mkReq "2.0" method params 1)) as [resp w'].
  exists (fst (call_result resp)), (snd (call_result resp)), w'.
  split.
  - destruct (call_result resp); reflexivity.
  - destruct resp as [e | e | o]; simpl; try reflexivity.
    destruct (Error o); simpl; [reflexivity | congruence].
Qed.

Lemma slice_inner_short (raw : RawMessage) (s : state World) :
  Strings.len raw < 2 ->
  slice_inner World raw s = (Abort PanicSliceBounds, s).
Proof.
  intros H. unfold slice_inner.
  destruct (Z.ltb_spec (Strings.len raw) 2); [reflexivity | lia].
Qed.

Lemma slice_inner_long (raw : RawMessage) (s : state World) :
  2 <= Strings.len raw ->
  slice_inner World raw s
  = (Ok (substring 1 (String.length raw - 2) raw), s).
Proof.
  intros H. unfold slice_inner.
  destruct (Z.ltb_spec (Strings.len raw) 2); [lia | reflexivity].
Qed.

(** One step of a run in the hypothesis [H]: name what the next call
    returns, split on the length test of the next slice or on the next
    test of [main], or pass a value on. *)
Ltac run_call H raw err w Hnil :=
  match type of H with
  | context [bind (call World post ?u ?m ?ps) ?k ?s] =>
      let E := fresh "E" in
      destruct (call_spec u m ps s) as (raw & err & w & E & Hnil);
      rewrite (bind_unfold (call World post u m ps) k s), E in H;
      cbn [fst snd] in H; clear E
  end.

Ltac run_slice H Hlen :=
  match type of H with
  | context [bind (slice_inner World ?raw) ?k ?s] =>
      rewrite (bind_unfold (slice_inner World raw) k s) in H;
      destruct (Z.lt_ge_cases (Strings.len raw) 2) as [Hlen | Hlen];
      [ rewrite (slice_inner_short raw s Hlen) in H
      | rewrite (slice_inner_long raw s Hlen) in H ]
  end.

Ltac run_step H :=
  let raw := fresh "raw" in
  let err := fresh "err" in
  let w := fresh "w" in
  let Hnil := fresh "Hnil" in
  let Hlen := fresh "Hlen" in
  first
    [ run_call H raw err w Hnil
    | run_slice H Hlen
    | match type of H with
      | context [match ?e with Some _ => _ | None => _ end] =>
          is_var e; destruct e
      | context [if ?b then _ else _] =>
          let C := fresh "C" in destruct b eqn:C
      | context [@ret _ ?A ?a ?s] =>
          change (@ret _ A a s) with (@Ok A a, s) in H
      | context [@stop _ ?A ?why ?s] =>
          change (@stop _ A why s) with (@Abort A why, s) in H
      | context [bind (ret ?a) ?k ?s] =>
          change (bind (ret a) k s) with (k a s) in H
      | context [bind (bind ?c ?k1) ?k2 ?s] =>
          rewrite (bind_unfold (bind c k1) k2 s) in H
      end ];
  cbv beta iota in H.

(** A run that reaches the last statement of [main]: what its variables
    hold. *)
Lemma main_run_Ok (env : string -> string) (w : World) (l : locals) :
  fst (main_run World post env w) = Ok l ->
  balDiff l = balPast l - balLatest l
  /\ nonceDiff l = nonceNow l - noncePast l
  /\ (latest l <= 100 -> pastBlock l = latest l /\ balPast l = balLatest l)
  /\ (100 < latest l -> pastBlock l = latest l - 100)
  /\ (score l, reasons l) = heuristics (balDiff l) (nonceDiff l) (codeNowRaw l)
  /\ out l = mkReport (env "ADDRESS") ("0x" ++ Big.Format_x (latest l))
               (score l) (reasons l) (Big.Text_f (weiToEth (balLatest l)) 6).
Proof.
  unfold main_run, main_locals. intros H.
  repeat run_step H.
  all: cbn [fst] in H; try discriminate H.
  all: injection H as <-; cbn [latest balLatest balPast pastBlock nonceNow
                               noncePast balDiff nonceDiff codeNowRaw score
                               reasons out].
  all: rewrite Cmp_gtb in C0.
  all: repeat split; try reflexivity; intros; try lia.
  all: try (apply Z.ltb_lt in C0; lia); try (apply Z.ltb_ge in C0; lia).
Qed.

(** A run that reaches the last statement of [main] made exactly the
    calls of [fetched_history], and its variables are decoded from the
    messages those calls returned. *)
Lemma main_run_fetched (env : string -> string) (w : World) (l : locals) :
  fst (main_run World post env w) = Ok l ->
  exists f,
    history World post env w = fetched_history (env "ADDRESS") f
    /\ latest l = fetched_latest f
    /\ pastBlock l = fetched_pastBlock f
    /\ balLatest l = decoded (got_balance f)
    /\ balDiff l = fetched_balDiff f
    /\ nonceNow l = decoded (got_nonce f)
    /\ noncePast l = decoded (got_nonce_ref f)
    /\ nonceDiff l = fetched_nonceDiff f
    /\ codeNowRaw l = got_code f
    /\ (got_code_err f <> None -> got_code f = "").
Proof.
  unfold history, main_run.
  remember (main_locals World post env (w, [])) as r eqn:H.
  unfold main_locals in H.
  repeat run_step H.
  all: subst r; cbn [fst snd app]; intros Hl; try discriminate Hl.
  all: injection Hl as <-.
  all: cbn [latest balLatest balPast pastBlock nonceNow noncePast balDiff
              nonceDiff codeNowRaw].
  all: match goal with
       | C : (Big.Cmp _ 100 >? 0) = _ |- _ => rewrite Cmp_gtb in C
       end.
  all: repeat match goal with
       | Hn : ?err <> None -> ?raw = "", Hl : 2 <= Strings.len ?raw |- _ =>
           assert (err = None)
             by (destruct err; [exfalso | reflexivity];
                 rewrite Hn in Hl by discriminate;
                 change (Strings.len "") with 0 in Hl; lia);
           clear Hn; subst err
       end.
  all: match goal with
       | Hb : 2 <= Strings.len ?bn, Hbal : 2 <= Strings.len ?bal,
         Hbr : 2 <= Strings.len ?balref, Hn : 2 <= Strings.len ?nn,
         Hp : 2 <= Strings.len ?np, Hc : ?cerr <> None -> ?code = "",
         C : (100 <? _) = true |- _ =>
           exists (mkFetched bn bal balref nn np code cerr)
       | Hb : 2 <= Strings.len ?bn, Hbal : 2 <= Strings.len ?bal,
         Hn : 2 <= Strings.len ?nn,
         Hp : 2 <= Strings.len ?np, Hc : ?cerr <> None -> ?code = "",
         C : (100 <? _) = false |- _ =>
           exists (mkFetched bn bal bal nn np code cerr)
       end.
  all: unfold fetched_history, fetched_pastBlock, fetched_balDiff,
         fetched_nonceDiff, fetched_latest, decoded;
       cbn [got_block got_balance got_balance_ref got_nonce got_nonce_ref
              got_code got_code_err].
  all: match goal with C : (100 <? _) = _ |- _ => rewrite !C end.
  all: cbn [app]; repeat split; try reflexivity; try assumption; lia.
Qed.

(** C1, amended.  For every run that prints and whose latest block is at
    most 100: the run made exactly five calls, the block number, the
    balance at "latest", the nonce at "latest", the nonce at the tag of the
    latest block number, and the code; no balance is fetched at the
    reference block.  The reference block is the latest block, the
    reference balance is a copy of the balance, so the balance delta is
    zero and the balance rule adds nothing: the score is 25 if the nonce
    answered at "latest" exceeds the nonce answered at the block tag by
    more than 20, plus 10 if the code message is longer than four bytes,
    with the matching reasons.  When the two nonce answers decode to the
    same number, the nonce delta is zero and the score is 10 with the
    single reason of the code rule, or 0 with no reason. *)
Theorem degenerate_window (env : string -> string) (w : World) (l : locals) :
  fst (main_run World post env w) = Ok l ->
  latest l <= 100 ->
  exists f,
    history World post env w
    = [mkCall "eth_blockNumber" [] (got_block f) None;
       mkCall "eth_getBalance" [env "ADDRESS"; "latest"] (got_balance f) None;
       mkCall "eth_getTransactionCount" [env "ADDRESS"; "latest"]
         (got_nonce f) None;
       mkCall "eth_getTransactionCount"
         [env "ADDRESS"; "0x" ++ Big.Format_x (decoded (got_block f))]
         (got_nonce_ref f) None;
       mkCall "eth_getCode" [env "ADDRESS"; "latest"] (got_code f)
         (got_code_err f)]
    /\ latest l = decoded (got_block f)
    /\ pastBlock l = latest l
    /\ balLatest l = decoded (got_balance f)
    /\ balPast l = balLatest l
    /\ balDiff l = 0
    /\ nonceDiff l = decoded (got_nonce f) - decoded (got_nonce_ref f)
    /\ Score (out l)
       = (if 20 <? decoded (got_nonce f) - decoded (got_nonce_ref f)
          then 25 else 0)
         + (if 4 <? Strings.len (got_code f) then 10 else 0)
    /\ Reasons (out l)
       = ((if 20 <? decoded (got_nonce f) - decoded (got_nonce_ref f)
           then [reason_nonce (decoded (got_nonce f) - decoded (got_nonce_ref f))]
           else [])
          ++ (if 4 <? Strings.len (got_code f) then [reason_code] else []))%list
    /\ (decoded (got_nonce f) = decoded (got_nonce_ref f) ->
        nonceDiff l = 0
        /\ Score (out l) = (if 4 <? Strings.len (got_code f) then 10 else 0)
        /\ Reasons (out l)
           = (if 4 <? Strings.len (got_code f) then [reason_code] else [])).
Proof.
  intros Hrun Hlatest.
  destruct (main_run_Ok env w l Hrun) as (Hb & Hn & Hdeg & _ & Hh & Hout).
  destruct (main_run_fetched env w l Hrun)
    as (f & Hhist & Hl & Hp & Hbl & Hbd & Hnn & Hnp & Hnd & Hc & _).
  destruct (Hdeg Hlatest) as [Hpast Hbal].
  assert (Hb0 : balDiff l = 0) by lia.
  assert (Hsmall : (100 <? fetched_latest f) = false)
    by (apply Z.ltb_ge; rewrite <- Hl; exact Hlatest).
  exists f.
  rewrite Hout. cbn [Score Reasons].
  rewrite heuristics_spec in Hh. injection Hh as Hscore Hreasons.
  rewrite Hscore, Hreasons, Hb0, Hc, Hnd. unfold fetched_nonceDiff.
  cbn [Z.ltb Z.compare app Z.add].
  split.
  { rewrite Hhist. unfold fetched_history, fetched_pastBlock.
    rewrite Hsmall. reflexivity. }
  do 8 (split; [first [exact Hl | exact Hpast | exact Hbl | exact Hbal
                      | reflexivity | lia] |]).
  intros Heq. rewrite Heq, Z.sub_diag. cbn [Z.ltb Z.compare app Z.add].
  repeat split; reflexivity.
Qed.

(** C7.  For every run that prints, the run made the calls of the program
    and the score of the report is the sum, clamped to 100, of the weights
    of the rules whose tests hold on the answers: 35 if the balance
    answered at the reference block exceeds the balance answered at
    "latest" (only above block 100), 25 if the nonce answered at "latest"
    exceeds the nonce answered at the reference block by more than 20, 10
    if the code message is longer than four bytes.  The score lies between
    0 and 100 and is at most 70.  The clamp is [min s 100]: a sum of 110
    becomes 100, and sums up to 100 pass unchanged.  A run in which the
    three rules fire scores 70. *)
Theorem score_sum_clamped (env : string -> string) (w : World) (l : locals) :
  fst (main_run World post env w) = Ok l ->
  (exists f,
      history World post env w = fetched_history (env "ADDRESS") f
      /\ balDiff l = fetched_balDiff f
      /\ nonceDiff l = fetched_nonceDiff f
      /\ codeNowRaw l = got_code f
      /\ Score (out l)
         = Z.min 100 ((if 0 <? fetched_balDiff f then 35 else 0)
                      + (if 20 <? fetched_nonceDiff f then 25 else 0)
                      + (if 4 <? Strings.len (got_code f) then 10 else 0)))
  /\ Score (out l)
     = Z.min 100 ((if 0 <? balDiff l then 35 else 0)
                  + (if 20 <? nonceDiff l then 25 else 0)
                  + (if 4 <? Strings.len (codeNowRaw l) then 10 else 0))
  /\ 0 <= Score (out l) <= 100
  /\ Score (out l) <= 70
  /\ (forall s, clamp s = Z.min s 100)
  /\ clamp (35 + 25 + 10 + 40) = 100
  /\ (exists doc,
         main unit (node alarming_chain) sample_env tt = Printed doc
         /\ Score doc = 70).
Proof.
  intros Hrun.
  destruct (main_run_Ok env w l Hrun) as (_ & _ & _ & _ & Hh & Hout).
  destruct (main_run_fetched env w l Hrun)
    as (f & Hhist & _ & _ & _ & Hbd & _ & _ & Hnd & Hc & _).
  rewrite Hout. cbn [Score].
  rewrite heuristics_spec in Hh. injection Hh as Hscore _.
  assert (Hclamp : forall s, clamp s = Z.min s 100).
  { intros s. unfold clamp. rewrite Z.gtb_ltb.
    destruct (Z.ltb_spec 100 s); lia. }
  split.
  { exists f. rewrite Hscore, <- Hbd, <- Hnd, <- Hc.
    repeat (split; [first [assumption | reflexivity] |]).
    destruct (0 <? balDiff l), (20 <? nonceDiff l),
      (4 <? Strings.len (codeNowRaw l)); reflexivity. }
  rewrite Hscore.
  destruct (0 <? balDiff l), (20 <? nonceDiff l),
    (4 <? Strings.len (codeNowRaw l));
    (split; [reflexivity | split; [cbn; lia | split; [cbn; lia |]]]);
    (split; [exact Hclamp | split; [reflexivity |]]);
    (eexists; split; [vm_compute; reflexivity | reflexivity]).
Qed.

(** C8.  For every run that prints, the run made the calls of the program
    and the reasons of the report are, in this order, the reason of the
    balance rule if the balance answered at the reference block exceeds
    the balance answered at "latest" (only above block 100), the reason of
    the nonce rule if the nonce answered at "latest" exceeds the nonce
    answered at the reference block by more than 20, and the reason of the
    code rule if the code message is longer than four bytes: one reason
    per rule that fires, at most three.  With a nonce delta of 21, equal
    balances and code present the score is 35 and the reasons are "high tx
    activity: +21 nonce/100 blocks" and then "address has code (smart
    wallet or contract)". *)
Theorem reasons_in_rule_order (env : string -> string) (w : World) (l : locals) :
  fst (main_run World post env w) = Ok l ->
  (exists f,
      history World post env w = fetched_history (env "ADDRESS") f
      /\ balDiff l = fetched_balDiff f
      /\ nonceDiff l = fetched_nonceDiff f
      /\ codeNowRaw l = got_code f
      /\ Reasons (out l)
         = ((if 0 <? fetched_balDiff f
             then [reason_balance (fetched_balDiff f)] else [])
            ++ (if 20 <? fetched_nonceDiff f
                then [reason_nonce (fetched_nonceDiff f)] else [])
            ++ (if 4 <? Strings.len (got_code f) then [reason_code] else []))%list
      /\ (fetched_nonceDiff f = 21 -> fetched_balDiff f = 0 ->
          4 < Strings.len (got_code f) ->
          Score (out l) = 35
          /\ Reasons (out l)
             = ["high tx activity: +21 nonce/100 blocks";
                "address has code (smart wallet or contract)"]))
  /\ Reasons (out l)
     = ((if 0 <? balDiff l then [reason_balance (balDiff l)] else [])
        ++ (if 20 <? nonceDiff l then [reason_nonce (nonceDiff l)] else [])
        ++ (if 4 <? Strings.len (codeNowRaw l) then [reason_code] else []))%list
  /\ (List.length (Reasons (out l)) <= 3)%nat
  /\ (nonceDiff l = 21 -> balPast l = balLatest l ->
      4 < Strings.len (codeNowRaw l) ->
      Score (out l) = 35
      /\ Reasons (out l)
         = ["high tx activity: +21 nonce/100 blocks";
            "address has code (smart wallet or contract)"]).
Proof.
  intros Hrun.
  destruct (main_run_Ok env w l Hrun) as (Hb & _ & _ & _ & Hh & Hout).
  destruct (main_run_fetched env w l Hrun)
    as (f & Hhist & _ & _ & _ & Hbd & _ & _ & Hnd & Hc & _).
  rewrite Hout. cbn [Score Reasons].
  rewrite heuristics_spec in Hh. injection Hh as Hscore Hreasons.
  rewrite Hreasons, Hscore.
  assert (Hex : nonceDiff l = 21 -> balDiff l = 0 ->
                4 < Strings.len (codeNowRaw l) ->
                (if 0 <? balDiff l then 35 else 0)
                + (if 20 <? nonceDiff l then 25 else 0)
                + (if 4 <? Strings.len (codeNowRaw l) then 10 else 0) = 35
                /\ ((if 0 <? balDiff l then [reason_balance (balDiff l)] else [])
                    ++ (if 20 <? nonceDiff l then [reason_nonce (nonceDiff l)] else [])
                    ++ (if 4 <? Strings.len (codeNowRaw l) then [reason_code] else []))%list
                   = ["high tx activity: +21 nonce/100 blocks";
                      "address has code (smart wallet or contract)"]).
  { intros Hn Hb0 Hcode. rewrite Hb0, Hn. cbn [Z.ltb Z.compare app].
    destruct (Z.ltb_spec 4 (Strings.len (codeNowRaw l))); [| lia].
    split; reflexivity. }
  split.
  { exists f. rewrite <- Hbd, <- Hnd, <- Hc.
    repeat (split; [first [assumption | reflexivity] |]). exact Hex. }
  split; [reflexivity | split].
  - destruct (0 <? balDiff l), (20 <? nonceDiff l),
      (4 <? Strings.len (codeNowRaw l)); cbn; lia.
  - intros Hn Hbal Hcode. apply Hex; [exact Hn | lia | exact Hcode].
Qed.

Lemma nil_message (raw : RawMessage) (err : option error) (e : error) :
  (err <> None -> raw = "") -> err = Some e -> raw = "".
Proof. intros Hnil ->. apply Hnil. discriminate. Qed.

(** C10.  For every run and every call in its history other than the
    first, if the call returned an error then: the message it returned is
    nil; the run does not panic with an error (the error is dropped);
    slicing the message, [raw[1:len(raw)-1]], is out of bounds; if the
    call fetched a balance or a nonce, the run ends in the slice-bounds
    panic and prints no report.  (A failed code fetch is followed by no
    slice, and the run prints.) *)
Theorem secondary_fetch_errors (env : string -> string) (w : World)
  (c : callRecord) (e : error) :
  In c (history World post env w) ->
  call_method c <> "eth_blockNumber" ->
  call_err c = Some e ->
  call_raw c = ""
  /\ (forall e', main World post env w <> Aborted (PanicError e'))
  /\ (forall s, slice_inner World (call_raw c) s = (Abort PanicSliceBounds, s))
  /\ (call_method c = "eth_getBalance" \/ call_method c = "eth_getTransactionCount" ->
      main World post env w = Aborted PanicSliceBounds)
  /\ (call_method c = "eth_getCode" ->
      exists doc, main World post env w = Printed doc).
Proof.
  unfold history, main, main_run.
  remember (main_locals World post env (w, [])) as r eqn:H.
  unfold main_locals in H.
  repeat run_step H.
  all: subst r; cbn [fst snd In app]; intros Hin Hm He.
  all: repeat match goal with
       | Hin : _ \/ _ |- _ => destruct Hin as [Hin | Hin]
       | Hin : False |- _ => destruct Hin
       | Hin : mkCall _ _ _ _ = ?x |- _ =>
           subst x; cbn [call_method call_err call_raw] in Hm, He |- *
       end.
  all: try (exfalso; apply Hm; reflexivity).
  all: repeat match goal with
       | Hn : ?err <> None -> ?raw = "", E : ?err = Some _ |- _ =>
           pose proof (nil_message raw err _ Hn E); clear Hn; subst raw
       | Hl : 2 <= Strings.len "" |- _ =>
           change (Strings.len "") with 0 in Hl; lia
       end.
  all: split; [reflexivity |].
  all: split; [discriminate |].
  all: split; [intros s; reflexivity |].
  all: split; [try reflexivity; intros [? | ?]; discriminate |].
  all: try discriminate; intros _; eexists; reflexivity.
Qed.

(** *** Further properties of runs *)

Lemma unconfigured_iff (env : string -> string) :
  ((env "RPC_URL" =? "")%string || (env "ADDRESS" =? "")%string) = true
  <-> env "RPC_URL" = "" \/ env "ADDRESS" = "".
Proof. rewrite orb_true_iff, !String.eqb_eq. reflexivity. Qed.

Lemma configured_iff (env : string -> string) :
  ((env "RPC_URL" =? "")%string || (env "ADDRESS" =? "")%string) = false
  <-> env "RPC_URL" <> "" /\ env "ADDRESS" <> "".
Proof. rewrite orb_false_iff, !String.eqb_neq. reflexivity. Qed.

Ltac in_history := cbn [In]; repeat (first [left; reflexivity | right]).

(** Lines 63-68.  The run ends in the usage exit exactly when one of the
    two configuration values is empty, and then no remote call is made. *)
Theorem usage_exit_iff (env : string -> string) (w : World) :
  (main World post env w = Aborted UsageExit
   <-> env "RPC_URL" = "" \/ env "ADDRESS" = "")
  /\ (env "RPC_URL" = "" \/ env "ADDRESS" = "" ->
      history World post env w = []).
Proof.
  unfold history, main, main_run.
  remember (main_locals World post env (w, [])) as r eqn:H.
  unfold main_locals in H.
  repeat run_step H.
  all: subst r; cbn [fst snd].
  all: match goal with
       | C : (_ || _) = true |- _ => apply unconfigured_iff in C
       | C : (_ || _) = false |- _ => apply configured_iff in C
       end.
  all: try (split; [split; [intros _; assumption | reflexivity] | reflexivity]).
  all: split; [split; [discriminate | tauto] | tauto].
Qed.

(** Lines 70-71.  The run ends in [panic(err)] exactly when it is
    configured and the first call returned the error; that call is then
    the only one made. *)
Theorem first_call_failure (env : string -> string) (w : World) (e : error) :
  main World post env w = Aborted (PanicError e)
  <-> env "RPC_URL" <> "" /\ env "ADDRESS" <> ""
      /\ history World post env w = [mkCall "eth_blockNumber" [] "" (Some e)].
Proof.
  unfold history, main, main_run.
  remember (main_locals World post env (w, [])) as r eqn:H.
  unfold main_locals in H.
  repeat run_step H.
  all: subst r; cbn [fst snd app].
  all: match goal with
       | C : (_ || _) = true |- _ => apply unconfigured_iff in C
       | C : (_ || _) = false |- _ => apply configured_iff in C
       end.
  all: repeat match goal with
       | Hn : Some ?e0 <> None -> ?raw = "" |- _ =>
           assert (raw = "") by (apply Hn; discriminate); clear Hn; subst raw
       end.
  all: split; [intros Hm | intros (H1 & H2 & Hh)].
  all: try discriminate; try tauto; try congruence.
  - injection Hm as ->. tauto.
Qed.

(** Lines 72-91.  A call for the block number, a balance or a nonce that
    returns no error and a message shorter than two bytes (a missing
    [result] member, a one-digit number) ends the run in the slice-bounds
    panic. *)
Theorem short_message_panics (env : string -> string) (w : World)
  (c : callRecord) :
  In c (history World post env w) ->
  call_method c <> "eth_getCode" ->
  call_err c = None ->
  Strings.len (call_raw c) < 2 ->
  main World post env w = Aborted PanicSliceBounds.
Proof.
  unfold history, main, main_run.
  remember (main_locals World post env (w, [])) as r eqn:H.
  unfold main_locals in H.
  repeat run_step H.
  all: subst r; cbn [fst snd In app]; intros Hin Hm He Hshort.
  all: repeat match goal with
       | Hin : _ \/ _ |- _ => destruct Hin as [Hin | Hin]
       | Hin : False |- _ => destruct Hin
       | Hin : mkCall _ _ _ _ = ?x |- _ =>
           subst x; cbn [call_method call_err call_raw] in Hm, He, Hshort |- *
       end.
  all: try reflexivity; try discriminate; try lia.
  all: exfalso; apply Hm; reflexivity.
Qed.

(** Lines 62-133.  The run prints a report exactly when it is configured
    and every call it made, the code call apart, returned a message of at
    least two bytes. *)
Theorem report_iff (env : string -> string) (w : World) :
  (exists doc, main World post env w = Printed doc)
  <-> env "RPC_URL" <> "" /\ env "ADDRESS" <> ""
      /\ (forall c, In c (history World post env w) ->
                    call_method c <> "eth_getCode" ->
                    2 <= Strings.len (call_raw c)).
Proof.
  unfold history, main, main_run.
  remember (main_locals World post env (w, [])) as r eqn:H.
  unfold main_locals in H.
  repeat run_step H.
  all: subst r; cbn [fst snd app].
  all: match goal with
       | C : (_ || _) = true |- _ => apply unconfigured_iff in C
       | C : (_ || _) = false |- _ => apply configured_iff in C
       end.
  all: repeat match goal with
       | Hn : Some ?e0 <> None -> ?raw = "" |- _ =>
           assert (raw = "") by (apply Hn; discriminate); clear Hn; subst raw
       end.
  all: split; [intros [doc Hd] | intros (H1 & H2 & Hall)].
  all: try discriminate Hd; try tauto.
  all: try (eexists; reflexivity).
  all: try (split; [tauto | split; [tauto |]]; intros c Hin Hm;
            cbn [In] in Hin;
            repeat match goal with
              | Hin : _ \/ _ |- _ => destruct Hin as [Hin | Hin]
              | Hin : False |- _ => destruct Hin
              | Hin : mkCall _ _ _ _ = ?x |- _ =>
                  subst x; cbn [call_method call_raw] in Hm |- *
              end; try assumption; exfalso; apply Hm; reflexivity).
  all: exfalso;
       match goal with
       | Hl : Strings.len ?raw < 2 |- _ =>
           assert (2 <= Strings.len raw)
             by (eapply (Hall (mkCall _ _ raw _)); [in_history | discriminate]);
           lia
       | |- _ =>
           assert (2 <= Strings.len "")
             by (eapply (Hall (mkCall _ _ "" _)); [in_history | discriminate]);
           change (Strings.len "") with 0 in *; lia
       end.
Qed.

Lemma Cmp_100 (x : Z) (b : bool) : (Big.Cmp x 100 >? 0) = b -> (100 <? x) = b.
Proof. rewrite Cmp_gtb. trivial. Qed.

(** Lines 70-111.  The calls of every run, in order, are an initial part
    of: block number, balance at "latest", balance at the reference block
    (only above block 100), nonce at "latest", nonce at the reference
    block, code at "latest"; never more than six.  A run that prints made
    all of them. *)
Theorem run_requests (env : string -> string) (w : World) :
  let h := history World post env w in
  let first := match h with c :: _ => decoded (call_raw c) | [] => 0 end in
  map request h
  = firstn (List.length h) (expected_requests (env "ADDRESS") first)
  /\ (List.length h <= 6)%nat
  /\ (forall l, fst (main_run World post env w) = Ok l ->
                map request h = expected_requests (env "ADDRESS") (latest l)).
Proof.
  unfold history, main_run.
  remember (main_locals World post env (w, [])) as r eqn:H.
  unfold main_locals in H.
  repeat run_step H.
  all: subst r; cbn [fst snd app map List.length request call_method
                       call_params call_raw].
  all: unfold expected_requests, decoded.
  all: try match goal with
       | C : (Big.Cmp _ 100 >? 0) = _ |- _ =>
           apply Cmp_100 in C; rewrite ?C
       end.
  all: cbn [app firstn].
  all: split; [reflexivity | split; [lia |]].
  all: intros l Hl; try discriminate Hl.
  all: injection Hl as <-; cbn [latest].
  all: match goal with C : (100 <? _) = _ |- _ => rewrite C end.
  all: reflexivity.
Qed.

(** Lines 70-111.  In a run that prints, every variable is decoded from
    the answer to its own call: the block number from the first, the
    balance from the second, the reference balance from the third (above
    block 100; a copy of the balance otherwise), the nonces from the two
    nonce calls, and the code from the last; all but the last returned no
    error. *)
Theorem run_dataflow (env : string -> string) (w : World) (l : locals) :
  fst (main_run World post env w) = Ok l ->
  exists c1 c2 mid c4 c5 c6,
    history World post env w = (c1 :: c2 :: mid ++ [c4; c5; c6])%list
    /\ latest l = decoded (call_raw c1)
    /\ balLatest l = decoded (call_raw c2)
    /\ (if 100 <? latest l
        then exists c3, mid = [c3] /\ balPast l = decoded (call_raw c3)
                        /\ call_err c3 = None
        else mid = [] /\ balPast l = balLatest l)
    /\ nonceNow l = decoded (call_raw c4)
    /\ noncePast l = decoded (call_raw c5)
    /\ codeNowRaw l = call_raw c6
    /\ call_err c1 = None /\ call_err c2 = None
    /\ call_err c4 = None /\ call_err c5 = None.
Proof.
  unfold history, main_run.
  remember (main_locals World post env (w, [])) as r eqn:H.
  unfold main_locals in H.
  repeat run_step H.
  all: subst r; cbn [fst snd app]; intros Hl; try discriminate Hl.
  all: injection Hl as <-.
  all: cbn [latest balLatest balPast nonceNow noncePast codeNowRaw].
  all: match goal with
       | C : (Big.Cmp _ 100 >? 0) = _ |- _ => apply Cmp_100 in C
       end.
  all: repeat match goal with
       | Hn : ?err <> None -> ?raw = "", Hl : 2 <= Strings.len ?raw |- _ =>
           assert (err = None)
             by (destruct err; [exfalso | reflexivity];
                 rewrite Hn in Hl by discriminate;
                 change (Strings.len "") with 0 in Hl; lia);
           clear Hn; subst err
       end.
  - do 2 eexists. eexists [_]. do 3 eexists. cbn [app].
    split; [reflexivity |]. cbn [call_raw call_err]. unfold decoded.
    rewrite C0. repeat split; try reflexivity.
    eexists. repeat split; reflexivity.
  - do 2 eexists. exists []. do 3 eexists. cbn [app].
    split; [reflexivity |]. cbn [call_raw call_err]. unfold decoded.
    rewrite C0. repeat split; reflexivity.
Qed.

(** Lines 119-131.  In a run that prints, the report carries the address
    of the configuration; its block field is "0x" and the hex digits of
    the number decoded from the answer to the first call, and decodes back
    to it; and its balance field is the balance decoded from the answer to
    the balance call at "latest", with six digits after the point, which
    read as the millionths of an ether nearest to it. *)
Theorem report_fields (env : string -> string) (w : World) (l : locals) :
  fst (main_run World post env w) = Ok l ->
  (exists f,
      history World post env w = fetched_history (env "ADDRESS") f
      /\ latest l = decoded (got_block f)
      /\ balLatest l = decoded (got_balance f)
      /\ Block (out l) = "0x" ++ Big.Format_x (decoded (got_block f))
      /\ hexToBig (Block (out l)) = decoded (got_block f)
      /\ BalLatest (out l) = Big.Text_f (weiToEth (decoded (got_balance f))) 6
      /\ exists ip fp n,
           BalLatest (out l)
           = (if decoded (got_balance f) <? 0 then "-" else "") ++ ip ++ "." ++ fp
           /\ String.length fp = 6%nat
           /\ Big.SetString (ip ++ fp) 10 = (n, true)
           /\ - 10 ^ 12
              <= 2 * (n * 10 ^ 12 - Z.abs (decoded (got_balance f)))
              <= 10 ^ 12)
  /\ Address (out l) = env "ADDRESS"
  /\ hexToBig (Block (out l)) = latest l
  /\ exists ip fp n,
       BalLatest (out l)
       = (if balLatest l <? 0 then "-" else "") ++ ip ++ "." ++ fp
       /\ String.length fp = 6%nat
       /\ Big.SetString (ip ++ fp) 10 = (n, true)
       /\ - 10 ^ 12 <= 2 * (n * 10 ^ 12 - Z.abs (balLatest l)) <= 10 ^ 12.
Proof.
  intros Hrun.
  destruct (main_run_Ok env w l Hrun) as (_ & _ & _ & _ & _ & Hout).
  destruct (main_run_fetched env w l Hrun)
    as (f & Hhist & Hl & _ & Hbl & _).
  unfold fetched_latest in Hl.
  rewrite Hout. cbn [Address Block BalLatest].
  destruct (weiToEth_scaled_nearest (balLatest l)) as [Hn Hnear].
  destruct (Text_f_shape (weiToEth (balLatest l)) Hn)
    as (ip & fp & Htext & Hlen & Hread).
  rewrite weiToEth_neg in Htext.
  split.
  { exists f. rewrite <- Hl, <- Hbl.
    do 3 (split; [first [assumption | reflexivity] |]).
    split; [reflexivity |]. split; [apply hexToBig_Format_x |].
    split; [reflexivity |].
    exists ip, fp, (Big.scaled (weiToEth (balLatest l)) 6). auto. }
  split; [reflexivity |]. split; [apply hexToBig_Format_x |].
  exists ip, fp, (Big.scaled (weiToEth (balLatest l)) 6). auto.
Qed.

Lemma reasons_distinct (a b : Z) :
  reason_balance a <> reason_nonce b
  /\ reason_balance a <> reason_code
  /\ reason_nonce b <> reason_code.
Proof.
  unfold reason_balance, reason_nonce, reason_code.
  repeat split; cbn [append]; discriminate.
Qed.

(** Lines 94-116.  In a run that prints, no reason appears twice, and the
    reasons tell which rules fired on the answers: the reason of the
    balance rule is in the report exactly when the balance answered at the
    reference block exceeds the balance answered at "latest" (above block
    100), the reason of the nonce rule exactly when the nonce answered at
    "latest" exceeds the nonce answered at the reference block by more
    than 20, and the reason of the code rule exactly when the code message
    is longer than four bytes. *)
Theorem reasons_identify_rules (env : string -> string) (w : World) (l : locals) :
  fst (main_run World post env w) = Ok l ->
  (exists f,
      history World post env w = fetched_history (env "ADDRESS") f
      /\ balDiff l = fetched_balDiff f
      /\ nonceDiff l = fetched_nonceDiff f
      /\ codeNowRaw l = got_code f
      /\ (In (reason_balance (fetched_balDiff f)) (Reasons (out l))
          <-> 100 < fetched_latest f
              /\ decoded (got_balance f) < decoded (got_balance_ref f))
      /\ (In (reason_nonce (fetched_nonceDiff f)) (Reasons (out l))
          <-> 20 < decoded (got_nonce f) - decoded (got_nonce_ref f))
      /\ (In reason_code (Reasons (out l)) <-> 4 < Strings.len (got_code f)))
  /\ NoDup (Reasons (out l))
  /\ (In (reason_balance (balDiff l)) (Reasons (out l)) <-> 0 < balDiff l)
  /\ (In (reason_nonce (nonceDiff l)) (Reasons (out l)) <-> 20 < nonceDiff l)
  /\ (In reason_code (Reasons (out l)) <-> 4 < Strings.len (codeNowRaw l)).
Proof.
  intros Hrun.
  destruct (main_run_Ok env w l Hrun) as (_ & _ & _ & _ & Hh & Hout).
  destruct (main_run_fetched env w l Hrun)
    as (f & Hhist & _ & _ & _ & Hbd & _ & _ & Hnd & Hc & _).
  rewrite Hout. cbn [Reasons].
  rewrite heuristics_spec in Hh. injection Hh as _ ->.
  destruct (reasons_distinct (balDiff l) (nonceDiff l)) as (D1 & D2 & D3).
  assert (Hold :
    NoDup ((if 0 <? balDiff l then [reason_balance (balDiff l)] else [])
           ++ (if 20 <? nonceDiff l then [reason_nonce (nonceDiff l)] else [])
           ++ (if 4 <? Strings.len (codeNowRaw l) then [reason_code] else []))
    /\ (In (reason_balance (balDiff l))
          ((if 0 <? balDiff l then [reason_balance (balDiff l)] else [])
           ++ (if 20 <? nonceDiff l then [reason_nonce (nonceDiff l)] else [])
           ++ (if 4 <? Strings.len (codeNowRaw l) then [reason_code] else []))
        <-> 0 < balDiff l)
    /\ (In (reason_nonce (nonceDiff l))
          ((if 0 <? balDiff l then [reason_balance (balDiff l)] else [])
           ++ (if 20 <? nonceDiff l then [reason_nonce (nonceDiff l)] else [])
           ++ (if 4 <? Strings.len (codeNowRaw l) then [reason_code] else []))
        <-> 20 < nonceDiff l)
    /\ (In reason_code
          ((if 0 <? balDiff l then [reason_balance (balDiff l)] else [])
           ++ (if 20 <? nonceDiff l then [reason_nonce (nonceDiff l)] else [])
           ++ (if 4 <? Strings.len (codeNowRaw l) then [reason_code] else []))
        <-> 4 < Strings.len (codeNowRaw l))).
  { destruct (Z.ltb_spec 0 (balDiff l)), (Z.ltb_spec 20 (nonceDiff l)),
      (Z.ltb_spec 4 (Strings.len (codeNowRaw l))); cbn [app In].
    all: split;
      [ repeat constructor; cbn [In]; intuition congruence
      | repeat split; intros; try lia; try tauto; intuition congruence ]. }
  destruct Hold as (O1 & O2 & O3 & O4).
  split; [| auto].
  exists f.
  do 4 (split; [first [assumption | reflexivity] |]).
  rewrite <- Hbd, <- Hnd, <- Hc.
  split; [| split; [| exact O4]].
  - rewrite O2, Hbd. unfold fetched_balDiff.
    destruct (Z.ltb_spec 100 (fetched_latest f)); lia.
  - rewrite O3, Hnd. unfold fetched_nonceDiff. reflexivity.
Qed.

(** Lines 94-118.  In a run that prints, the score is one of 0, 10, 25,
    35, 45, 60 and 70; it is 0 exactly when there is no reason; and it
    lies between 10 and 35 times the number of reasons. *)
Theorem score_values (env : string -> string) (w : World) (l : locals) :
  fst (main_run World post env w) = Ok l ->
  In (Score (out l)) [0; 10; 25; 35; 45; 60; 70]
  /\ (Score (out l) = 0 <-> Reasons (out l) = [])
  /\ 10 * Z.of_nat (List.length (Reasons (out l))) <= Score (out l)
     <= 35 * Z.of_nat (List.length (Reasons (out l))).
Proof.
  intros Hrun.
  destruct (main_run_Ok env w l Hrun) as (_ & _ & _ & _ & Hh & Hout).
  rewrite Hout. cbn [Score Reasons].
  rewrite heuristics_spec in Hh. injection Hh as -> ->.
  destruct (0 <? balDiff l), (20 <? nonceDiff l),
    (4 <? Strings.len (codeNowRaw l)); cbn.
  all: split; [tauto |]; split; [split; intros; discriminate || reflexivity | lia].
Qed.

(** Lines 32-47.  [call] never ends the run.  It makes one exchange, with
    a request of version "2.0" and id 1, and records the call.  It returns
    no error exactly when the response decoded and has no error member,
    and then the message is the [result] member; with an error the
    message is nil, also when the response carried a result beside the
    error member, and the error of an error member is "rpc error <code>:
    <message>". *)
Theorem call_contract (url method : string) (params : list string)
  (s : state World) :
  let resp := fst (post (fst s) url (mkReq "2.0" method params 1)) in
  exists raw err,
    call World post url method params s
    = (Ok (raw, err),
       (snd (post (fst s) url (mkReq "2.0" method params 1)),
        (snd s ++ [mkCall method params raw err])%list))
    /\ (err = None <-> exists out, resp = Decoded out /\ Error out = None)
    /\ (forall out, resp = Decoded out -> Error out = None -> raw = Result out)
    /\ (err <> None -> raw = "")
    /\ (forall out e, resp = Decoded out -> Error out = Some e ->
          err = Some ("rpc error " ++ Big.String_ (Code e) ++ ": " ++ Message e)).
Proof.
  unfold call.
  destruct (post (fst s) url (mkReq "2.0" method params 1)) as [resp w'].
  cbn [fst snd].
  exists (fst (call_result resp)), (snd (call_result resp)).
  split; [destruct (call_result resp); reflexivity |].
  unfold Big.String_.
  destruct resp as [e | e | o]; cbn [call_result fst snd].
  - repeat split; try discriminate; try reflexivity.
    intros (out & Ho & _). discriminate Ho.
  - repeat split; try discriminate; try reflexivity.
    intros (out & Ho & _). discriminate Ho.
  - destruct (Error o) as [re |] eqn:E; cbn [fst snd].
    + repeat split; try discriminate; try reflexivity.
      * intros (out & [= <-] & Ho). congruence.
      * intros out [= <-] Ho. congruence.
      * intros out e' [= <-] Ho. rewrite E in Ho. injection Ho as <-. reflexivity.
    + repeat split; try reflexivity.
      * eauto.
      * intros out [= <-] _. reflexivity.
      * congruence.
      * intros out e' [= <-] Ho. congruence.
Qed.

End RunFacts.

(** *** Runs against the sample chains *)

(** C1 as stated does not hold, on two counts.  On a chain at block 16
    whose account has code, the reference block is the latest block and
    both deltas are zero, yet the score is 10 and the reasons hold the
    reason of the code rule: the code rule does not depend on the window.
    And on a chain at block 16 whose node answers nonce 26 at the tag
    "latest" and nonce 5 at the tag "0x10", the nonce delta is 21, not
    zero, and the score is 25: the two nonces come from two calls. *)
Lemma degenerate_window_scores_code :
  (exists l,
      fst (main_run unit (node young_chain) sample_env tt) = Ok l
      /\ latest l <= 100
      /\ pastBlock l = latest l /\ balDiff l = 0 /\ nonceDiff l = 0
      /\ Score (out l) = 10
      /\ Reasons (out l) = ["address has code (smart wallet or contract)"]
      /\ ~ (Score (out l) = 0 /\ Reasons (out l) = []))
  /\ (exists l,
         fst (main_run unit (node racing_chain) sample_env tt) = Ok l
         /\ latest l <= 100
         /\ pastBlock l = latest l /\ balDiff l = 0
         /\ map request (history unit (node racing_chain) sample_env tt)
            = [("eth_blockNumber", []);
               ("eth_getBalance",
                ["0x00000000000000000000000000000000000000aa"; "latest"]);
               ("eth_getTransactionCount",
                ["0x00000000000000000000000000000000000000aa"; "latest"]);
               ("eth_getTransactionCount",
                ["0x00000000000000000000000000000000000000aa"; "0x10"]);
               ("eth_getCode",
                ["0x00000000000000000000000000000000000000aa"; "latest"])]
         /\ nonceDiff l = 21
         /\ Score (out l) = 25
         /\ Reasons (out l) = ["high tx activity: +21 nonce/100 blocks"]
         /\ ~ (nonceDiff l = 0 /\ Score (out l) = 0 /\ Reasons (out l) = [])).
Proof.
  split.
  - eexists. split; [vm_compute; reflexivity |].
    cbn. repeat split; try discriminate.
    intros [H _]. discriminate H.
  - eexists. split; [vm_compute; reflexivity |].
    split; [vm_compute; discriminate |].
    split; [reflexivity |]. split; [reflexivity |].
    split; [vm_compute; reflexivity |].
    split; [reflexivity |]. split; [reflexivity |]. split; [reflexivity |].
    intros [H _]. discriminate H.
Qed.

Lemma degenerate_window_witness :
  exists l f,
    fst (main_run unit (node young_chain) sample_env tt) = Ok l
    /\ latest l <= 100
    /\ history unit (node young_chain) sample_env tt
       = [mkCall "eth_blockNumber" [] (got_block f) None;
          mkCall "eth_getBalance" [sample_env "ADDRESS"; "latest"]
            (got_balance f) None;
          mkCall "eth_getTransactionCount" [sample_env "ADDRESS"; "latest"]
            (got_nonce f) None;
          mkCall "eth_getTransactionCount"
            [sample_env "ADDRESS"; "0x" ++ Big.Format_x (decoded (got_block f))]
            (got_nonce_ref f) None;
          mkCall "eth_getCode" [sample_env "ADDRESS"; "latest"] (got_code f)
            (got_code_err f)]
    /\ balDiff l = 0
    /\ Score (out l)
       = (if 20 <? decoded (got_nonce f) - decoded (got_nonce_ref f)
          then 25 else 0)
         + (if 4 <? Strings.len (got_code f) then 10 else 0).
Proof.
  eexists.
  match goal with
  | |- exists f, fst ?r = Ok ?l /\ _ =>
      assert (Hrun : fst r = Ok l) by (vm_compute; reflexivity)
  end.
  destruct (degenerate_window unit (node young_chain) sample_env tt _ Hrun
              ltac:(vm_compute; discriminate))
    as (f & Hh & _ & _ & _ & _ & Hb & _ & Hs & _).
  exists f. split; [exact Hrun |]. split; [vm_compute; discriminate |].
  split; [exact Hh |]. split; [exact Hb | exact Hs].
Defined.

Lemma score_sum_clamped_witness :
  exists l f,
    fst (main_run unit (node alarming_chain) sample_env tt) = Ok l
    /\ history unit (node alarming_chain) sample_env tt
       = fetched_history (sample_env "ADDRESS") f
    /\ Score (out l)
       = Z.min 100 ((if 0 <? fetched_balDiff f then 35 else 0)
                    + (if 20 <? fetched_nonceDiff f then 25 else 0)
                    + (if 4 <? Strings.len (got_code f) then 10 else 0))
    /\ Score (out l) = 70.
Proof.
  eexists.
  match goal with
  | |- exists f, fst ?r = Ok ?l /\ _ =>
      assert (Hrun : fst r = Ok l) by (vm_compute; reflexivity)
  end.
  destruct (score_sum_clamped unit (node alarming_chain) sample_env tt _ Hrun)
    as ((f & Hh & _ & _ & _ & Hs) & _).
  exists f. split; [exact Hrun |]. split; [exact Hh |].
  split; [exact Hs | reflexivity].
Defined.

Lemma reasons_in_rule_order_witness :
  exists l f,
    fst (main_run unit (node busy_chain) sample_env tt) = Ok l
    /\ history unit (node busy_chain) sample_env tt
       = fetched_history (sample_env "ADDRESS") f
    /\ fetched_nonceDiff f = 21 /\ fetched_balDiff f = 0
    /\ 4 < Strings.len (got_code f)
    /\ Score (out l) = 35
    /\ Reasons (out l)
       = ["high tx activity: +21 nonce/100 blocks";
          "address has code (smart wallet or contract)"].
Proof.
  eexists.
  match goal with
  | |- exists f, fst ?r = Ok ?l /\ _ =>
      assert (Hrun : fst r = Ok l) by (vm_compute; reflexivity)
  end.
  destruct (reasons_in_rule_order unit (node busy_chain) sample_env tt _ Hrun)
    as ((f & Hh & Hbd & Hnd & Hc & _ & Hex) & _).
  assert (Hn21 : fetched_nonceDiff f = 21) by (rewrite <- Hnd; reflexivity).
  assert (Hb0 : fetched_balDiff f = 0) by (rewrite <- Hbd; reflexivity).
  assert (Hcode : 4 < Strings.len (got_code f))
    by (rewrite <- Hc; vm_compute; reflexivity).
  exists f. split; [exact Hrun |]. split; [exact Hh |].
  split; [exact Hn21 |]. split; [exact Hb0 |]. split; [exact Hcode |].
  exact (Hex Hn21 Hb0 Hcode).
Defined.

(** C2 does not hold of the program.  With the same chain, a failure of
    the first fetch ends the run in [panic(err)], but the later calls drop
    their error: a failed code fetch yields a complete report that says
    the account has no code, and a failed balance or nonce fetch ends the
    run in a slice-bounds panic that does not carry the error. *)
Theorem failed_fetch_runs :
  main unit (node alarming_chain) sample_env tt
  = Printed (mkReport "0x00000000000000000000000000000000000000aa" "0x3e8" 70
               ["balance drop ~0.500000 ETH/100 blocks";
                "high tx activity: +21 nonce/100 blocks";
                "address has code (smart wallet or contract)"] "1.500000")
  /\ main unit (node (failing "eth_getCode" alarming_chain)) sample_env tt
     = Printed (mkReport "0x00000000000000000000000000000000000000aa" "0x3e8" 60
                  ["balance drop ~0.500000 ETH/100 blocks";
                   "high tx activity: +21 nonce/100 blocks"] "1.500000")
  /\ main unit (node (failing "eth_getBalance" alarming_chain)) sample_env tt
     = Aborted PanicSliceBounds
  /\ main unit (node (failing "eth_getTransactionCount" alarming_chain)) sample_env tt
     = Aborted PanicSliceBounds
  /\ main unit (node (failing "eth_blockNumber" alarming_chain)) sample_env tt
     = Aborted (PanicError "connection refused").
Proof.
  split; [vm_compute; reflexivity |].
  split; [vm_compute; reflexivity |].
  split; [vm_compute; reflexivity |].
  split; vm_compute; reflexivity.
Qed.

Lemma secondary_fetch_errors_witness :
  let c := mkCall "eth_getBalance"
             ["0x00000000000000000000000000000000000000aa"; "latest"] ""
             (Some "connection refused") in
  In c (history unit (node (failing "eth_getBalance" alarming_chain)) sample_env tt)
  /\ main unit (node (failing "eth_getBalance" alarming_chain)) sample_env tt
     = Aborted PanicSliceBounds.
Proof.
  intros c.
  assert (Hin : In c (history unit (node (failing "eth_getBalance" alarming_chain))
                        sample_env tt))
    by (vm_compute; right; left; reflexivity).
  split; [exact Hin |].
  apply (secondary_fetch_errors unit (node (failing "eth_getBalance" alarming_chain))
           sample_env tt c "connection refused" Hin
           ltac:(discriminate) ltac:(reflexivity)).
  left. reflexivity.
Defined.

(* ===================================================================== *)
(** ** Further properties of the codec *)
(* ===================================================================== *)

(** Lines 55-60, 130.  Rendering is monotone on non-negative amounts: a
    larger amount never reads as fewer millionths of an ether. *)
Theorem weiToEth_monotone (x y : Z) :
  0 <= x <= y ->
  exists ipx fpx nx ipy fpy ny,
    Big.Text_f (weiToEth x) 6 = ipx ++ "." ++ fpx
    /\ Big.Text_f (weiToEth y) 6 = ipy ++ "." ++ fpy
    /\ String.length fpx = 6%nat /\ String.length fpy = 6%nat
    /\ Big.SetString (ipx ++ fpx) 10 = (nx, true)
    /\ Big.SetString (ipy ++ fpy) 10 = (ny, true)
    /\ nx <= ny.
Proof.
  intros H.
  destruct (weiToEth_scaled_nearest x) as [Hnx Hx].
  destruct (weiToEth_scaled_nearest y) as [Hny Hy].
  destruct (Text_f_shape (weiToEth x) Hnx) as (ipx & fpx & Tx & Lx & Rx).
  destruct (Text_f_shape (weiToEth y) Hny) as (ipy & fpy & Ty & Ly & Ry).
  rewrite weiToEth_neg in Tx, Ty.
  destruct (Z.ltb_spec x 0); [lia |]. destruct (Z.ltb_spec y 0); [lia |].
  exists ipx, fpx, (Big.scaled (weiToEth x) 6), ipy, fpy, (Big.scaled (weiToEth y) 6).
  repeat (split; [assumption |]).
  destruct (Z.eq_dec x y) as [-> | Hne]; [lia |].
  rewrite Z.abs_eq in Hx, Hy by lia.
  change (10 ^ 12) with 1000000000000 in *. lia.
Qed.

Lemma weiToEth_monotone_witness :
  exists ipx fpx nx ipy fpy ny,
    Big.Text_f (weiToEth 500000000000) 6 = ipx ++ "." ++ fpx
    /\ Big.Text_f (weiToEth 1500000000000) 6 = ipy ++ "." ++ fpy
    /\ String.length fpx = 6%nat /\ String.length fpy = 6%nat
    /\ Big.SetString (ipx ++ fpx) 10 = (nx, true)
    /\ Big.SetString (ipy ++ fpy) 10 = (ny, true)
    /\ nx <= ny.
Proof. apply (weiToEth_monotone 500000000000 1500000000000). lia. Defined.

(** Lines 55-60, 130.  An amount that is a whole number of millionths of
    an ether is rendered exactly: the text is the decimal quotient, under
    every rounding mode. *)
Theorem weiToEth_exact (k : Z) (mode : RoundingMode) :
  0 <= k ->
  Big.Text_f (weiToEth (k * 10 ^ 12)) 6 = weiToEther_spec mode (k * 10 ^ 12).
Proof.
  intros Hk.
  assert (E : Big.scaled (weiToEth (k * 10 ^ 12)) 6 = k).
  { destruct (weiToEth_scaled_nearest (k * 10 ^ 12)) as [_ H].
    change (10 ^ 12) with 1000000000000 in *.
    rewrite Z.abs_eq in H by lia. lia. }
  unfold Big.Text_f, weiToEther_spec. rewrite weiToEth_neg, E.
  destruct (Z.ltb_spec (k * 10 ^ 12) 0) as [C | _];
    [change (10 ^ 12) with 1000000000000 in C; lia |].
  assert (R : roundQuo mode (k * 10 ^ 12) (10 ^ 12) = k).
  { unfold roundQuo. rewrite Z.div_mul, Z.mod_mul by discriminate.
    destruct mode; reflexivity. }
  rewrite R. reflexivity.
Qed.

Lemma weiToEth_exact_witness :
  Big.Text_f (weiToEth (1500000 * 10 ^ 12)) 6
  = weiToEther_spec Ceiling (1500000 * 10 ^ 12).
Proof. apply (weiToEth_exact 1500000 Ceiling). lia. Defined.

Lemma weiToEth_opp (x : Z) :
  0 < x ->
  weiToEth (- x)
  = Big.mkFloat (Big.prec (weiToEth x)) true (Big.mant (weiToEth x))
      (Big.exp (weiToEth x)).
Proof.
  intros Hx. unfold weiToEth, Big.SetInt, Big.BitLen.
  rewrite Z.abs_opp.
  destruct (Z.eqb_spec (- x) 0) as [E | _]; [lia |].
  destruct (Z.eqb_spec x 0) as [E | _]; [lia |].
  destruct (Z.ltb_spec (- x) 0) as [_ | C]; [| lia].
  destruct (Z.ltb_spec x 0) as [C | _]; [lia |].
  unfold Big.Quo. cbn [Big.prec Big.neg Big.mant Big.exp].
  repeat match goal with |- context [if ?b then _ else _] => destruct b end;
    reflexivity.
Qed.

(** Lines 55-60, 130.  A negative amount is rendered as a minus sign in
    front of the text of its absolute value, also when the digits are all
    zero. *)
Theorem weiToEth_negative (x : Z) :
  0 < x ->
  Big.Text_f (weiToEth (- x)) 6 = "-" ++ Big.Text_f (weiToEth x) 6.
Proof.
  intros Hx. rewrite (weiToEth_opp x Hx).
  unfold Big.Text_f, Big.scaled. cbn [Big.neg Big.mant Big.exp].
  rewrite weiToEth_neg.
  destruct (Z.ltb_spec x 0); [lia | reflexivity].
Qed.

Lemma weiToEth_negative_witness :
  Big.Text_f (weiToEth (- 1)) 6 = "-" ++ Big.Text_f (weiToEth 1) 6.
Proof. apply (weiToEth_negative 1). lia. Defined.

Lemma allHex_app (a b : string) :
  allHex (a ++ b) = allHex a && allHex b.
Proof.
  induction a as [| ch a IH]; cbn [append allHex]; [reflexivity |].
  rewrite IH, andb_assoc. reflexivity.
Qed.

Lemma hexValueFrom_app (a b : string) :
  forall acc, hexValueFrom acc (a ++ b) = hexValueFrom (hexValueFrom acc a) b.
Proof.
  induction a as [| ch a IH]; intros acc; cbn [append hexValueFrom];
    [reflexivity | apply IH].
Qed.

Lemma hexValueFrom_shift (b : string) :
  allHex b = true ->
  forall acc,
    hexValueFrom acc b = acc * 16 ^ Strings.len b + hexValueFrom 0 b
    /\ 0 <= hexValueFrom 0 b < 16 ^ Strings.len b.
Proof.
  unfold Strings.len.
  induction b as [| ch b IH]; intros H acc.
  - cbn. lia.
  - cbn [allHex] in H. apply andb_true_iff in H. destruct H as [Hc Hb].
    destruct (isHexDigit_digitVal ch Hc) as [E R]. rewrite E in R.
    cbn [hexValueFrom String.length].
    rewrite Nat2Z.inj_succ, Z.pow_succ_r by lia.
    destruct (IH Hb (acc * 16 + hexDigitValue ch)) as [E1 _].
    destruct (IH Hb (0 * 16 + hexDigitValue ch)) as [E2 B].
    rewrite E1, E2. split; [ring | nia].
Qed.

(** Lines 49-53.  Decoding is positional and unbounded: for hex digit
    strings [a] and [b], the value of "0x" [a] [b] is the value of "0x"
    [a] shifted by the digits of [b] plus the value of "0x" [b], which is
    below 16 to the number of its digits; a leading zero changes nothing. *)
Theorem hexToBig_positional (a b : string) :
  allHex a = true -> allHex b = true ->
  hexToBig ("0x" ++ a ++ b)
  = hexToBig ("0x" ++ a) * 16 ^ Strings.len b + hexToBig ("0x" ++ b)
  /\ 0 <= hexToBig ("0x" ++ b) < 16 ^ Strings.len b
  /\ hexToBig ("0x" ++ "0" ++ b) = hexToBig ("0x" ++ b).
Proof.
  intros Ha Hb.
  assert (Hab : allHex (a ++ b) = true) by (rewrite allHex_app, Ha, Hb; reflexivity).
  assert (H0b : allHex ("0" ++ b) = true) by (cbn [append allHex]; rewrite Hb; reflexivity).
  rewrite !hexToBig_allHex by (rewrite TrimPrefix_0x; assumption).
  rewrite !TrimPrefix_0x. unfold hexValue.
  rewrite hexValueFrom_app.
  destruct (hexValueFrom_shift b Hb (hexValueFrom 0 a)) as [E B].
  split; [exact E |]. split; [exact B |]. reflexivity.
Qed.

Lemma hexToBig_positional_witness :
  hexToBig ("0x" ++ "de0b" ++ "6b3a7640000")
  = hexToBig ("0x" ++ "de0b") * 16 ^ Strings.len "6b3a7640000"
    + hexToBig ("0x" ++ "6b3a7640000").
Proof.
  apply (hexToBig_positional "de0b" "6b3a7640000"); reflexivity.
Defined.

(** Lines 49-53.  A sign is accepted after the prefix: "0x-" followed by
    hex digits decodes, with success of [SetString], to the negative of
    the digits' value, and "0x+" to the value itself. *)
Theorem hexToBig_signed (r : string) :
  allHex r = true -> r <> "" ->
  hexToBig ("0x-" ++ r) = - hexToBig ("0x" ++ r)
  /\ hexToBig ("0x+" ++ r) = hexToBig ("0x" ++ r)
  /\ snd (Big.SetString ("-" ++ r) 16) = true
  /\ 0 <= hexToBig ("0x" ++ r).
Proof.
  intros Hr Hne.
  rewrite (hexToBig_allHex ("0x" ++ r)) by (rewrite TrimPrefix_0x; exact Hr).
  rewrite TrimPrefix_0x.
  unfold hexToBig.
  change (Strings.TrimPrefix ("0x-" ++ r) "0x") with ("-" ++ r).
  change (Strings.TrimPrefix ("0x+" ++ r) "0x") with ("+" ++ r).
  unfold Big.SetString. cbn [append Big.scanSign].
  rewrite (scanDigits_allHex r Hr).
  destruct r as [| ch r]; [contradiction |].
  cbn [String.length Nat.add fst snd]. unfold hexValue.
  repeat split. apply hexValueFrom_nonneg; [exact Hr | lia].
Qed.

Lemma hexToBig_signed_witness : hexToBig ("0x-" ++ "ff") = - hexToBig ("0x" ++ "ff").
Proof. apply (hexToBig_signed "ff"); [reflexivity | discriminate]. Defined.

Lemma lower_hex (ch : ascii) :
  isHexDigit ch = true ->
  isHexDigit (lower ch) = true /\ hexDigitValue (lower ch) = hexDigitValue ch.
Proof.
  destruct ch as [[] [] [] [] [] [] [] []]; intros H;
    try discriminate H; split; reflexivity.
Qed.

(** Lines 49-53.  The case of the hex digits does not matter: a string of
    hex digits and its lower-case form decode to the same number. *)
Theorem hexToBig_case (s : string) :
  allHex s = true ->
  hexToBig ("0x" ++ ToLower s) = hexToBig ("0x" ++ s).
Proof.
  intros Hs.
  assert (G : allHex (ToLower s) = true
              /\ forall acc, hexValueFrom acc (ToLower s) = hexValueFrom acc s).
  { induction s as [| ch s IH]; [split; reflexivity |].
    cbn [allHex] in Hs. apply andb_true_iff in Hs. destruct Hs as [Hc Hs].
    destruct (lower_hex ch Hc) as [L1 L2]. destruct (IH Hs) as [I1 I2].
    cbn [ToLower allHex hexValueFrom]. rewrite L1, I1, L2.
    split; [reflexivity | intros acc; apply I2]. }
  destruct G as [G1 G2].
  rewrite !hexToBig_allHex by (rewrite TrimPrefix_0x; assumption).
  rewrite !TrimPrefix_0x. apply G2.
Qed.

Lemma hexToBig_case_witness :
  hexToBig ("0x" ++ ToLower "DE0B6B3A7640000") = hexToBig ("0x" ++ "DE0B6B3A7640000").
Proof. apply (hexToBig_case "DE0B6B3A7640000"). reflexivity. Defined.

Lemma substring_all (s t : string) : substring 0 (String.length s) (s ++ t) = s.
Proof.
  induction s as [| ch s IH]; cbn [String.length append substring].
  - destruct t; reflexivity.
  - rewrite IH. reflexivity.
Qed.

Lemma quoted_length (s : string) :
  String.length (quoted s) = S (S (String.length s)).
Proof.
  unfold quoted. cbn [String.length]. f_equal.
  induction s as [| ch s IH]; cbn [append String.length]; lia.
Qed.

(** Lines 72-91.  The slice takes the quotes off a JSON string: a quoted
    text is long enough to be sliced, what the program decodes from it is
    [hexToBig] of the text, and a number answered as "0x" and its hex
    digits in quotes is decoded to that number, whatever its size and
    sign. *)
Theorem decoded_quoted (s : string) (z : Z) :
  2 <= Strings.len (quoted s)
  /\ decoded (quoted s) = hexToBig s
  /\ decoded (quoted ("0x" ++ Big.Format_x z)) = z.
Proof.
  assert (D : forall t, decoded (quoted t) = hexToBig t).
  { intros t. unfold decoded. rewrite quoted_length.
    replace (S (S (String.length t)) - 2)%nat with (String.length t) by lia.
    unfold quoted. cbn [substring].
    rewrite substring_all. reflexivity. }
  split; [unfold Strings.len; rewrite quoted_length; lia |].
  split; [apply D |]. rewrite D. apply hexToBig_Format_x.
Qed.

(** Lines 101-105.  The number printed in the reason of the nonce rule is
    the nonce delta in decimal: it reads back as the delta. *)
Theorem reason_nonce_reads_back (nonceDiff : Z) :
  exists digits,
    reason_nonce nonceDiff = "high tx activity: +" ++ digits ++ " nonce/100 blocks"
    /\ Big.SetString digits 10 = (nonceDiff, true).
Proof.
  exists (Big.String_ nonceDiff). split; [reflexivity |].
  apply (SetString_itoa 10). lia.
Qed.

(** *** The further properties on the sample chains *)

Lemma usage_exit_iff_witness :
  main unit (node drained_chain) (fun _ => "") tt = Aborted UsageExit
  /\ history unit (node drained_chain) (fun _ => "") tt = [].
Proof.
  destruct (usage_exit_iff unit (node drained_chain) (fun _ => "") tt) as [H1 H2].
  split; [apply H1 | apply H2]; left; reflexivity.
Defined.

Lemma first_call_failure_witness :
  main unit (node (failing "eth_blockNumber" drained_chain)) sample_env tt
  = Aborted (PanicError "connection refused").
Proof.
  apply (first_call_failure unit (node (failing "eth_blockNumber" drained_chain))
           sample_env tt "connection refused").
  split; [discriminate |]. split; [discriminate |]. reflexivity.
Defined.

Lemma short_message_panics_witness :
  main unit (node (replying "eth_getBalance" "" alarming_chain)) sample_env tt
  = Aborted PanicSliceBounds.
Proof.
  apply (short_message_panics unit
           (node (replying "eth_getBalance" "" alarming_chain)) sample_env tt
           (mkCall "eth_getBalance"
              ["0x00000000000000000000000000000000000000aa"; "latest"] "" None)).
  - vm_compute. right. left. reflexivity.
  - discriminate.
  - reflexivity.
  - reflexivity.
Defined.

Lemma report_iff_witness :
  exists doc, main unit (node alarming_chain) sample_env tt = Printed doc.
Proof.
  apply (report_iff unit (node alarming_chain) sample_env tt).
  split; [discriminate |]. split; [discriminate |].
  intros c Hin _. vm_compute in Hin.
  repeat (destruct Hin as [<- | Hin]; [vm_compute; discriminate |]).
  destruct Hin.
Defined.

Lemma run_requests_witness :
  map request (history unit (node alarming_chain) sample_env tt)
  = expected_requests "0x00000000000000000000000000000000000000aa" 1000.
Proof.
  apply (proj2 (proj2 (run_requests unit (node alarming_chain) sample_env tt))
           (mkLocals 1000 (15 * 10 ^ 17) (2 * 10 ^ 18) 900 26 5 (5 * 10 ^ 17) 21
              (quoted "0x6080") 70
              ["balance drop ~0.500000 ETH/100 blocks";
               "high tx activity: +21 nonce/100 blocks";
               "address has code (smart wallet or contract)"]
              (mkReport "0x00000000000000000000000000000000000000aa" "0x3e8" 70
                 ["balance drop ~0.500000 ETH/100 blocks";
                  "high tx activity: +21 nonce/100 blocks";
                  "address has code (smart wallet or contract)"] "1.500000"))).
  vm_compute. reflexivity.
Defined.

Lemma run_dataflow_witness :
  exists l c3,
    fst (main_run unit (node alarming_chain) sample_env tt) = Ok l
    /\ In c3 (history unit (node alarming_chain) sample_env tt)
    /\ balPast l = decoded (call_raw c3)
    /\ call_err c3 = None.
Proof.
  eexists. 
  match goal with
  | |- exists c3, fst ?r = Ok ?l /\ _ =>
      assert (Hrun : fst r = Ok l) by (vm_compute; reflexivity)
  end.
  destruct (run_dataflow unit (node alarming_chain) sample_env tt _ Hrun)
    as (c1 & c2 & mid & c4 & c5 & c6 & Hh & _ & _ & Hmid & _).
  cbn in Hmid. destruct Hmid as (c3 & -> & Hb & He).
  exists c3. split; [exact Hrun |]. split; [| split; assumption].
  rewrite Hh. cbn. tauto.
Defined.

Lemma report_fields_witness :
  exists l f,
    fst (main_run unit (node alarming_chain) sample_env tt) = Ok l
    /\ history unit (node alarming_chain) sample_env tt
       = fetched_history (sample_env "ADDRESS") f
    /\ Block (out l) = "0x" ++ Big.Format_x (decoded (got_block f))
    /\ BalLatest (out l) = Big.Text_f (weiToEth (decoded (got_balance f))) 6
    /\ Address (out l) = "0x00000000000000000000000000000000000000aa".
Proof.
  eexists.
  match goal with
  | |- exists f, fst ?r = Ok ?l /\ _ =>
      assert (Hrun : fst r = Ok l) by (vm_compute; reflexivity)
  end.
  destruct (report_fields unit (node alarming_chain) sample_env tt _ Hrun)
    as ((f & Hh & _ & _ & Hb & _ & Ht & _) & Ha & _).
  exists f. split; [exact Hrun |]. split; [exact Hh |].
  split; [exact Hb |]. split; [exact Ht | exact Ha].
Defined.

Lemma reasons_identify_rules_witness :
  exists l f,
    fst (main_run unit (node busy_chain) sample_env tt) = Ok l
    /\ history unit (node busy_chain) sample_env tt
       = fetched_history (sample_env "ADDRESS") f
    /\ (In reason_code (Reasons (out l)) <-> 4 < Strings.len (got_code f))
    /\ NoDup (Reasons (out l)).
Proof.
  eexists.
  match goal with
  | |- exists f, fst ?r = Ok ?l /\ _ =>
      assert (Hrun : fst r = Ok l) by (vm_compute; reflexivity)
  end.
  destruct (reasons_identify_rules unit (node busy_chain) sample_env tt _ Hrun)
    as ((f & Hh & _ & _ & _ & _ & _ & Hc) & Hnd & _).
  exists f. split; [exact Hrun |]. split; [exact Hh |].
  split; [exact Hc | exact Hnd].
Defined.

Lemma score_values_witness :
  exists l,
    fst (main_run unit (node drained_chain) sample_env tt) = Ok l
    /\ In (Score (out l)) [0; 10; 25; 35; 45; 60; 70].
Proof.
  eexists. split; [vm_compute; reflexivity |].
  match goal with
  | |- In (Score (out ?l)) _ =>
      apply (score_values unit (node drained_chain) sample_env tt l
               ltac:(vm_compute; reflexivity))
  end.
Defined.
